(** * validation.js : email, password and phone validators

    A shallow embedding of [src/validation.js] and of the part of the
    ECMAScript runtime it calls ([String], [String.prototype.trim],
    [String.prototype.length], [RegExp.prototype.test]).

    - A JavaScript string is a sequence of UTF-16 code units.
    - [String(value)] can throw (an object without a usable [toString] /
      [valueOf]), so the validators live in a small monad that threads the
      module's [RegExp] objects and an abrupt completion.
    - A regular-expression literal is a syntax tree, matched by a
      backtracking matcher; [test] follows RegExpBuiltinExec, including the
      [lastIndex] bookkeeping that the [g] and [y] flags switch on. *)

From Stdlib Require Import List NArith Arith Bool String Ascii Lia.
Import ListNotations.

(** ** JavaScript strings *)

Module JsStr.

Definition code_unit := N.
Definition jsstring := list code_unit.

(** An ASCII literal of the source as a sequence of code units. *)
Definition lit (s : string) : jsstring :=
  map N_of_ascii (list_ascii_of_string s).

Definition cu (c : ascii) : code_unit := N_of_ascii c.
Arguments cu c%_char.

(** [s.length]: the number of code units. *)
Definition js_length (s : jsstring) : nat := List.length s.

(** ECMAScript WhiteSpace and LineTerminator code points: the set removed by
    [trim] and matched by the class escape [\s]. *)
Definition isWhiteSpace (c : code_unit) : bool :=
  ((9 <=? c) && (c <=? 13)          (* TAB LF VT FF CR *)
   || (c =? 32)                     (* SPACE *)
   || (c =? 160)                    (* NO-BREAK SPACE *)
   || (c =? 5760)                   (* U+1680 *)
   || (8192 <=? c) && (c <=? 8202)  (* U+2000 .. U+200A *)
   || (c =? 8232) || (c =? 8233)    (* U+2028 U+2029 *)
   || (c =? 8239) || (c =? 8287)    (* U+202F U+205F *)
   || (c =? 12288)                  (* U+3000 *)
   || (c =? 65279))%N.              (* U+FEFF *)

(** [\d] *)
Definition isDigit (c : code_unit) : bool := ((48 <=? c) && (c <=? 57))%N.

Fixpoint trimStart (s : jsstring) : jsstring :=
  match s with
  | [] => []
  | c :: t => if isWhiteSpace c then trimStart t else s
  end.

Fixpoint trimEnd (s : jsstring) : jsstring :=
  match s with
  | [] => []
  | c :: t =>
      match trimEnd t with
      | [] => if isWhiteSpace c then [] else [c]
      | t' => c :: t'
      end
  end.

(** [s.trim()] *)
Definition trim (s : jsstring) : jsstring := trimEnd (trimStart s).

End JsStr.
Export JsStr.

(** ** Values and completions *)

Inductive JsExn :=
| TypeError
| UserExn (tag : nat).

Inductive Completion (A : Type) :=
| Normal (a : A)
| Throw (e : JsExn).
Arguments Normal {A} a.
Arguments Throw {A} e.

(** The argument of a validator.  Numbers and BigInts are carried with the
    decimal text that [Number::toString] / [BigInt::toString] give them (the
    float printing algorithm is not modelled).  An object is carried with
    the completion of [ToPrimitive(obj, string)] followed by [ToString]:
    running its [toString] / [valueOf] either produces a string or throws;
    [Throw TypeError] is what [Object.create(null)] or [{toString: 1}] do.
    That completion is the one of a single conversion: [String] runs the
    object's methods anew at every call, and [Callers.Argument] below gives
    an object across several calls. *)
Inductive JsValue :=
| JsUndefined
| JsNull
| JsBoolean (b : bool)
| JsNumeric (text : jsstring)
| JsString (s : jsstring)
| JsSymbol (description : option jsstring)
| JsObject (toPrimitive : Completion jsstring).

(** [String(value)] called as a function. *)
Definition js_String (value : JsValue) : Completion jsstring :=
  match value with
  | JsUndefined => Normal (lit "undefined")
  | JsNull => Normal (lit "null")
  | JsBoolean b => Normal (if b then lit "true" else lit "false")
  | JsNumeric text => Normal text
  | JsString s => Normal s
  | JsSymbol None => Normal (lit "Symbol()")
  | JsSymbol (Some d) => Normal (lit "Symbol(" ++ d ++ lit ")")
  | JsObject c => c
  end.

(** A value is present when it is neither [null] nor [undefined]. *)
Definition present (value : JsValue) : bool :=
  match value with
  | JsUndefined | JsNull => false
  | _ => true
  end.

(** ** Regular expressions *)

Module RegExp.

(** The members of a bracketed class. *)
Inductive ClassAtom :=
| CChar (c : code_unit)            (* a character, possibly escaped: [@] [\-] [\\] *)
| CRange (lo hi : code_unit)       (* [1-9] *)
| CDigit                           (* [\d] *)
| CSpace.                          (* [\s] *)

Inductive Atom :=
| Char (c : code_unit)             (* a pattern character or identity escape: [@] [\+] [\.] *)
| Digit                            (* [\d] *)
| Class (negated : bool) (items : list ClassAtom).

(** The patterns of this module are sequences of assertions and of atoms,
    an atom carrying at most one quantifier. *)
Inductive Term :=
| AssertStart                                      (* [^] *)
| AssertEnd                                        (* [$] *)
| Single (a : Atom)                                (* an atom without quantifier *)
| Repeat (a : Atom) (min : nat) (max : option nat) (* [a+] is [Repeat a 1 None], [a{m,n}] is [Repeat a m (Some n)] *).

Definition Pattern := list Term.

Definition classAtomMatches (i : ClassAtom) (c : code_unit) : bool :=
  match i with
  | CChar x => (c =? x)%N
  | CRange lo hi => ((lo <=? c) && (c <=? hi))%N
  | CDigit => isDigit c
  | CSpace => isWhiteSpace c
  end.

Definition atomMatches (a : Atom) (c : code_unit) : bool :=
  match a with
  | Char x => (c =? x)%N
  | Digit => isDigit c
  | Class negated items =>
      xorb negated (existsb (fun i => classAtomMatches i c) items)
  end.

(** A continuation receives the index reached and the input left, and
    answers with the end index of the whole match. *)
Definition Continuation := nat -> jsstring -> option nat.

Definition maxAllows (max : option nat) : bool :=
  match max with
  | None => true
  | Some n => negb (n =? 0)
  end.

Definition maxPred (max : option nat) : option nat :=
  match max with
  | None => None
  | Some n => Some (pred n)
  end.

(** Greedy repetition: take one more character when allowed, and fall back
    to stopping here when the rest of the pattern then fails. *)
Fixpoint repeatMatcher (a : Atom) (min : nat) (max : option nat)
    (k : Continuation) (idx : nat) (rest : jsstring) {struct rest} : option nat :=
  let stop := if min =? 0 then k idx rest else None in
  match rest with
  | [] => stop
  | c :: rest' =>
      if maxAllows max && atomMatches a c then
        match repeatMatcher a (pred min) (maxPred max) k (S idx) rest' with
        | Some e => Some e
        | None => stop
        end
      else stop
  end.

(** Match pattern [p] against the input whose unread part is [rest],
    starting at index [idx]. *)
Fixpoint matchTerms (p : Pattern) (idx : nat) (rest : jsstring) {struct p}
    : option nat :=
  match p with
  | [] => Some idx
  | AssertStart :: p' => if idx =? 0 then matchTerms p' idx rest else None
  | AssertEnd :: p' =>
      match rest with
      | [] => matchTerms p' idx rest
      | _ :: _ => None
      end
  | Single a :: p' =>
      match rest with
      | [] => None
      | c :: rest' =>
          if atomMatches a c then matchTerms p' (S idx) rest' else None
      end
  | Repeat a min max :: p' => repeatMatcher a min max (matchTerms p') idx rest
  end.

(** A [RegExp] object: its pattern, the [g] and [y] flags and the mutable
    [lastIndex] property. *)
Record RegExpObj := mkRegExp {
  source : Pattern;
  global : bool;
  sticky : bool;
  lastIndex : nat
}.

Definition setLastIndex (R : RegExpObj) (i : nat) : RegExpObj :=
  mkRegExp (source R) (global R) (sticky R) i.

(** The loop of RegExpBuiltinExec: try at [idx]; on failure give up when
    sticky, else advance by one code unit until the end of the input. *)
Fixpoint execFrom (p : Pattern) (y : bool) (idx : nat) (rest : jsstring)
    {struct rest} : option nat :=
  match matchTerms p idx rest with
  | Some e => Some e
  | None =>
      if y then None
      else match rest with
           | [] => None
           | _ :: rest' => execFrom p y (S idx) rest'
           end
  end.

(** RegExpBuiltinExec: the end index of the match, if any, and the object
    after the call.  [lastIndex] is read and written only under [g] or [y]. *)
Definition regExpBuiltinExec (R : RegExpObj) (S : jsstring)
    : option nat * RegExpObj :=
  let flagged := global R || sticky R in
  let start := if flagged then lastIndex R else 0 in
  if js_length S <? start then
    (None, if flagged then setLastIndex R 0 else R)
  else
    match execFrom (source R) (sticky R) start (skipn start S) with
    | Some e => (Some e, if flagged then setLastIndex R e else R)
    | None => (None, if flagged then setLastIndex R 0 else R)
    end.

(** Whether an execution produced a match (a result that is not [null]). *)
Definition matched (r : option nat) : bool :=
  match r with
  | Some _ => true
  | None => false
  end.

(** [R.test(S)] *)
Definition test (R : RegExpObj) (S : jsstring) : bool * RegExpObj :=
  let (r, R') := regExpBuiltinExec R S in (matched r, R').

(** The upper bound of a quantifier admits [n] repetitions. *)
Definition within (max : option nat) (n : nat) : Prop :=
  match max with
  | None => True
  | Some m => n <= m
  end.

End RegExp.
Export RegExp.

(** ** validation.js *)

Module Validation.

(** [[^\s@]] *)
Definition notSpaceNorAt : Atom := Class true [CSpace; CChar (cu "@")].

(** [/^[^\s@]+@[^\s@]+\.[^\s@]+$/] *)
Definition EMAIL_SOURCE : Pattern :=
  [ AssertStart;
    Repeat notSpaceNorAt 1 None;
    Single (Char (cu "@"));
    Repeat notSpaceNorAt 1 None;
    Single (Char (cu "."));
    Repeat notSpaceNorAt 1 None;
    AssertEnd ].

(** [/^\+[1-9]\d{7,14}$/] *)
Definition E164_SOURCE : Pattern :=
  [ AssertStart;
    Single (Char (cu "+"));
    Single (Class false [CRange (cu "1") (cu "9")]);
    Repeat Digit 7 (Some 14);
    AssertEnd ].

(** The double quote, code unit 34. *)
Definition DQUOTE : code_unit := 34%N.

(** [PASSWORD_SPECIAL_REGEX]: one bracketed class and no anchor.  The items
    are listed in source order; the escapes of the source (of the hyphen,
    the brackets, the backslash and the slash) denote the characters
    themselves, so the class has no range. *)
Definition PASSWORD_SPECIAL_SOURCE : Pattern :=
  [ Single (Class false
      [ CChar (cu "!"); CChar (cu "@"); CChar (cu "#"); CChar (cu "$");
        CChar (cu "%"); CChar (cu "^"); CChar (cu "&"); CChar (cu "*");
        CChar (cu "("); CChar (cu ")"); CChar (cu "_"); CChar (cu "+");
        CChar (cu "-"); CChar (cu "="); CChar (cu "["); CChar (cu "]");
        CChar (cu "{"); CChar (cu "}"); CChar (cu ";"); CChar (cu "'");
        CChar (cu ":"); CChar DQUOTE; CChar (cu "\"); CChar (cu "|");
        CChar (cu ","); CChar (cu "."); CChar (cu "<"); CChar (cu ">");
        CChar (cu "/"); CChar (cu "?") ]) ].

(** [/\d/] *)
Definition DIGIT_SOURCE : Pattern := [ Single Digit ].

(** [ERROR_MESSAGES], frozen when the module is loaded. *)
Record ErrorMessages := {
  email_format : jsstring;
  password_length : jsstring;
  password_number : jsstring;
  password_special : jsstring;
  phone_format : jsstring
}.

Definition ERROR_MESSAGES : ErrorMessages := {|
  email_format := lit "Invalid email format";
  password_length := lit "Password must be at least 8 characters long";
  password_number := lit "Password must contain at least one number";
  password_special := lit "Password must contain at least one special character";
  phone_format := lit "Invalid phone number format"
|}.

(** The mutable objects the module holds in its top-level constants. *)
Record ModuleState := mkModuleState {
  EMAIL_REGEX : RegExpObj;
  E164_REGEX : RegExpObj;
  PASSWORD_SPECIAL_REGEX : RegExpObj
}.

(** The module as [require] leaves it: three literals without flags. *)
Definition loaded : ModuleState := {|
  EMAIL_REGEX := mkRegExp EMAIL_SOURCE false false 0;
  E164_REGEX := mkRegExp E164_SOURCE false false 0;
  PASSWORD_SPECIAL_REGEX := mkRegExp PASSWORD_SPECIAL_SOURCE false false 0
|}.

(** Computations over the module's objects that may complete abruptly. *)
Definition M (A : Type) : Type := ModuleState -> Completion A * ModuleState.

Definition ret {A} (a : A) : M A := fun m => (Normal a, m).

Definition bind {A B} (c : M A) (f : A -> M B) : M B :=
  fun m =>
    match c m with
    | (Normal a, m') => f a m'
    | (Throw e, m') => (Throw e, m')
    end.

Definition lift {A} (c : Completion A) : M A := fun m => (c, m).

Notation "x <- c ;; k" := (bind c (fun x => k))
  (at level 61, c at next level, right associativity).

(** [R.test(v)] on one of the module's regular expressions. *)
Definition test_EMAIL_REGEX (v : jsstring) : M bool :=
  fun m =>
    let (b, R') := test (EMAIL_REGEX m) v in
    (Normal b, mkModuleState R' (E164_REGEX m) (PASSWORD_SPECIAL_REGEX m)).

Definition test_E164_REGEX (v : jsstring) : M bool :=
  fun m =>
    let (b, R') := test (E164_REGEX m) v in
    (Normal b, mkModuleState (EMAIL_REGEX m) R' (PASSWORD_SPECIAL_REGEX m)).

Definition test_PASSWORD_SPECIAL_REGEX (v : jsstring) : M bool :=
  fun m =>
    let (b, R') := test (PASSWORD_SPECIAL_REGEX m) v in
    (Normal b, mkModuleState (EMAIL_REGEX m) (E164_REGEX m) R').

(** [/\d/.test(v)]: the literal is evaluated to a fresh object at each call,
    and the object is dropped afterwards. *)
Definition test_digit_literal (v : jsstring) : M bool :=
  ret (fst (test (mkRegExp DIGIT_SOURCE false false 0) v)).

Definition normalizeInput (value : JsValue) : Completion jsstring :=
  match value with
  | JsNull | JsUndefined => Normal (lit "")
  | _ =>
      match js_String value with
      | Normal s => Normal (trim s)
      | Throw e => Throw e
      end
  end.

Record ValidationResult := {
  valid : bool;
  errors : list jsstring
}.

Definition result (errors : list jsstring) : ValidationResult :=
  {| valid := List.length errors =? 0; errors := errors |}.

(** [errors.push(msg)] *)
Definition push (errors : list jsstring) (msg : jsstring) : list jsstring :=
  errors ++ [msg].

Definition validateEmail (value : JsValue) : M ValidationResult :=
  v <- lift (normalizeInput value) ;;
  let errors := [] in
  matched <- test_EMAIL_REGEX v ;;
  let errors :=
    if negb matched then push errors (email_format ERROR_MESSAGES) else errors in
  ret (result errors).

Definition validatePassword (value : JsValue) : M ValidationResult :=
  v <- lift (normalizeInput value) ;;
  let errors := [] in
  let errors :=
    if js_length v <? 8 then push errors (password_length ERROR_MESSAGES)
    else errors in
  hasDigit <- test_digit_literal v ;;
  let errors :=
    if negb hasDigit then push errors (password_number ERROR_MESSAGES)
    else errors in
  hasSpecial <- test_PASSWORD_SPECIAL_REGEX v ;;
  let errors :=
    if negb hasSpecial then push errors (password_special ERROR_MESSAGES)
    else errors in
  ret (result errors).

Definition validatePhone (value : JsValue) : M ValidationResult :=
  v <- lift (normalizeInput value) ;;
  let errors := [] in
  matched <- test_E164_REGEX v ;;
  let errors :=
    if negb matched then push errors (phone_format ERROR_MESSAGES) else errors in
  ret (result errors).

(** A call from the freshly loaded module. *)
Definition run {A} (c : M A) : Completion A := fst (c loaded).

End Validation.
Export Validation.

(** ** The rules in the words of the specification *)

Module Rules.

(** A non-whitespace, non-[@] character. *)
Definition plain (c : code_unit) : bool :=
  negb (isWhiteSpace c) && negb (c =? cu "@")%N.

(** local [@] domain [.] tld, each part one or more plain characters. *)
Definition email_shape (s : jsstring) : Prop :=
  exists l d t,
    s = l ++ [cu "@"] ++ d ++ [cu "."] ++ t /\
    l <> [] /\ d <> [] /\ t <> [] /\
    forallb plain l = true /\ forallb plain d = true /\
    forallb plain t = true.

(** A character in [0] .. [9]. *)
Definition in_0_9 (c : code_unit) : bool := ((cu "0" <=? c) && (c <=? cu "9"))%N.

(** A character in [1] .. [9]. *)
Definition in_1_9 (c : code_unit) : bool := ((cu "1" <=? c) && (c <=? cu "9"))%N.

(** A leading [+], a first digit in 1-9, then 7 to 14 further digits. *)
Definition phone_shape (s : jsstring) : Prop :=
  exists d further,
    s = cu "+" :: d :: further /\
    in_1_9 d = true /\
    7 <= List.length further <= 14 /\
    forallb in_0_9 further = true.

(** The whitelist of special characters, in the order the specification
    lists it. *)
Definition WHITELIST : jsstring :=
  lit "!@#$%^&*()_+-=[]{};':" ++ [DQUOTE] ++ lit "\|,.<>/?".

Definition whitelisted (c : code_unit) : bool :=
  existsb (fun w => (c =? w)%N) WHITELIST.

Definition long_enough (s : jsstring) : bool := 8 <=? List.length s.
Definition has_digit (s : jsstring) : bool := existsb in_0_9 s.
Definition has_special (s : jsstring) : bool := existsb whitelisted s.

(** No whitespace at either end. *)
Definition clean_ends (s : jsstring) : bool :=
  match s with [] => true | c :: _ => negb (isWhiteSpace c) end &&
  match rev s with [] => true | c :: _ => negb (isWhiteSpace c) end.

(** [t] is [s] with its leading and trailing whitespace removed. *)
Definition stripped (s t : jsstring) : Prop :=
  exists pre post,
    s = pre ++ t ++ post /\
    forallb isWhiteSpace pre = true /\
    forallb isWhiteSpace post = true /\
    clean_ends t = true.

(** The five strings of the message table. *)
Definition message_table : list jsstring :=
  [ email_format ERROR_MESSAGES; password_length ERROR_MESSAGES;
    password_number ERROR_MESSAGES; password_special ERROR_MESSAGES;
    phone_format ERROR_MESSAGES ].

(** A space, a digit or an ASCII letter. *)
Definition space_digit_or_letter (c : code_unit) : bool :=
  ((c =? cu " ") || in_0_9 c
   || (cu "A" <=? c) && (c <=? cu "Z")
   || (cu "a" <=? c) && (c <=? cu "z"))%N.

(** The three exported validators. *)
Definition validators : list (JsValue -> M ValidationResult) :=
  [ validateEmail; validatePassword; validatePhone ].

(** The longest error list each validator may return. *)
Definition max_errors : list ((JsValue -> M ValidationResult) * nat) :=
  [ (validateEmail, 1); (validatePassword, 3); (validatePhone, 1) ].

End Rules.
Export Rules.

(** ** Vocabulary for further properties of the validators *)

Module Outcomes.

(** The result of a validator that accepts its input. *)
Definition accepted : Completion ValidationResult :=
  Normal {| valid := true; errors := [] |}.

(** The result of a validator that rejects its input with [msgs]. *)
Definition rejected (msgs : list string) : Completion ValidationResult :=
  Normal {| valid := false; errors := map lit msgs |}.

(** The number of [@] in a string. *)
Definition count_at (s : jsstring) : nat :=
  List.length (filter (fun c => (c =? cu "@")%N) s).

Definition no_whitespace (s : jsstring) : bool :=
  forallb (fun c => negb (isWhiteSpace c)) s.

(** Only whitespace, or nothing at all. *)
Definition blank (s : jsstring) : bool := forallb isWhiteSpace s.

(** A string without its first and its last code unit. *)
Definition interior (s : jsstring) : jsstring := removelast (tl s).

(** The printable ASCII characters, space to tilde. *)
Definition printable_ascii : list code_unit := map N.of_nat (seq 32 95).

End Outcomes.
Export Outcomes.

(** ** Arguments across several calls *)

Module Callers.

(** An argument as a caller holds it.  [String] runs the [toString] /
    [valueOf] of an object at each call, and these may answer differently
    from one call to the next: an object is given by the completion of each
    of its conversions in turn.  Any other value, and an object whose
    methods keep no state, converts the same way every time. *)
Inductive Argument :=
| Plain (value : JsValue)
| Stateful (conversion : nat -> Completion jsstring).

(** The argument as the call that performs its conversion number [k]
    sees it. *)
Definition seen (a : Argument) (k : nat) : JsValue :=
  match a with
  | Plain value => value
  | Stateful conversion => JsObject (conversion k)
  end.

(** The module's objects, and how many times the argument has been
    converted so far. *)
Definition Session : Type := ModuleState * nat.

(** [validate(a)]: [normalizeInput] converts a present argument once. *)
Definition call (validate : JsValue -> M ValidationResult) (a : Argument)
    (s : Session) : Completion ValidationResult * Session :=
  let (m, k) := s in
  let (r, m') := validate (seen a k) m in
  (r, (m', if present (seen a k) then S k else k)).

(** [validate(String(a).trim())]: the caller converts the argument, and
    the validator receives the trimmed string. *)
Definition call_normalized (validate : JsValue -> M ValidationResult)
    (a : Argument) (s : Session) : Completion ValidationResult * Session :=
  let (m, k) := s in
  match js_String (seen a k) with
  | Normal str =>
      let (r, m') := validate (JsString (trim str)) m in (r, (m', S k))
  | Throw e => (Throw e, (m, S k))
  end.

(** A session that begins with the freshly loaded module. *)
Definition start : Session := (loaded, 0).

(** An object whose [toString] answers "a@b.c" the first time and
    "+14155552671" from then on. *)
Definition fickle : Argument :=
  Stateful (fun k => if k =? 0 then Normal (lit "a@b.c")
                     else Normal (lit "+14155552671")).

End Callers.
Export Callers.

(** ** Facts about [trim] *)

Section TrimFacts.

Lemma trimStart_fixed c t :
  isWhiteSpace c = false -> trimStart (c :: t) = c :: t.
Proof. intros H. simpl. now rewrite H. Qed.

Lemma trimStart_split s :
  exists pre, s = pre ++ trimStart s /\ forallb isWhiteSpace pre = true.
Proof.
  induction s as [|c t [pre [E F]]].
  - now exists [].
  - simpl. destruct (isWhiteSpace c) eqn:W.
    + exists (c :: pre). simpl. rewrite W, F. split; [now f_equal | reflexivity].
    + now exists [].
Qed.

Lemma trimStart_head s :
  match trimStart s with
  | [] => True
  | c :: _ => isWhiteSpace c = false
  end.
Proof.
  induction s as [|c t IH]; simpl; [exact I|].
  destruct (isWhiteSpace c) eqn:W; [exact IH | exact W].
Qed.

Lemma trimEnd_split s :
  exists post, s = trimEnd s ++ post /\ forallb isWhiteSpace post = true.
Proof.
  induction s as [|c t [post [E F]]].
  - now exists [].
  - simpl. destruct (trimEnd t) as [|d t'] eqn:T.
    + destruct (isWhiteSpace c) eqn:W.
      * exists (c :: post). simpl in *. rewrite W, F. split; [now f_equal | reflexivity].
      * exists post. simpl in *. split; [now f_equal | exact F].
    + exists post. split; [|exact F]. simpl. now f_equal.
Qed.

Lemma trimEnd_last s :
  match rev (trimEnd s) with
  | [] => True
  | c :: _ => isWhiteSpace c = false
  end.
Proof.
  induction s as [|c t IH]; simpl; [exact I|].
  destruct (trimEnd t) as [|d t'] eqn:T.
  - destruct (isWhiteSpace c) eqn:W; simpl; [exact I | exact W].
  - change (rev (c :: d :: t')) with (rev (d :: t') ++ [c]).
    destruct (rev (d :: t')) as [|x r] eqn:R.
    + apply (f_equal (@List.length _)) in R. rewrite length_rev in R. discriminate.
    + exact IH.
Qed.

Lemma trimEnd_head c t :
  isWhiteSpace c = false -> exists t', trimEnd (c :: t) = c :: t'.
Proof.
  intros W. simpl. destruct (trimEnd t) as [|d t'].
  - rewrite W. now exists [].
  - now exists (d :: t').
Qed.

Lemma trimEnd_fixed s :
  match rev s with [] => True | c :: _ => isWhiteSpace c = false end ->
  trimEnd s = s.
Proof.
  induction s as [|c t IH]; intros H; [reflexivity|].
  simpl in *. destruct t as [|d t'].
  - simpl in *. now rewrite H.
  - assert (E : trimEnd (d :: t') = d :: t').
    { apply IH. destruct (rev (d :: t')) as [|x r] eqn:R.
      - apply (f_equal (@List.length _)) in R. rewrite length_rev in R. discriminate.
      - exact H. }
    now rewrite E.
Qed.

Lemma trimEnd_idem s : trimEnd (trimEnd s) = trimEnd s.
Proof. apply trimEnd_fixed, trimEnd_last. Qed.

Lemma trim_clean_ends s : clean_ends (trim s) = true.
Proof.
  unfold clean_ends, trim. apply andb_true_intro. split.
  - pose proof (trimStart_head s) as H.
    destruct (trimStart s) as [|c t]; [reflexivity|].
    destruct (trimEnd_head c t H) as [t' ->]. now rewrite H.
  - pose proof (trimEnd_last (trimStart s)) as H.
    destruct (rev (trimEnd (trimStart s))); [reflexivity | now rewrite H].
Qed.

Lemma clean_ends_trim s : clean_ends s = true -> trim s = s.
Proof.
  unfold clean_ends, trim. intros H. apply andb_prop in H as [H1 H2].
  assert (E : trimStart s = s).
  { destruct s as [|c t]; [reflexivity|]. apply trimStart_fixed.
    now apply negb_true_iff. }
  rewrite E. apply trimEnd_fixed.
  destruct (rev s); [exact I | now apply negb_true_iff].
Qed.

Lemma trim_idem s : trim (trim s) = trim s.
Proof. apply clean_ends_trim, trim_clean_ends. Qed.

Lemma trim_stripped s : stripped s (trim s).
Proof.
  destruct (trimStart_split s) as [pre [E1 F1]].
  destruct (trimEnd_split (trimStart s)) as [post [E2 F2]].
  exists pre, post. repeat split; auto using trim_clean_ends.
  unfold trim. now rewrite <- E2.
Qed.

End TrimFacts.

(** ** Facts about the matcher *)

Section MatcherFacts.

Lemma stop_matched (min : nat) (r : option nat) :
  matched (if min =? 0 then r else None) = true <->
  min = 0 /\ matched r = true.
Proof.
  destruct (Nat.eqb_spec min 0) as [->|N]; simpl.
  - tauto.
  - split; [discriminate | intros [E _]; contradiction].
Qed.

(** A repetition succeeds exactly when the input splits into an admissible
    run of the atom and a rest on which the continuation succeeds. *)
Lemma repeatMatcher_matched a k rest : forall min max idx,
  matched (repeatMatcher a min max k idx rest) = true <->
  exists pre post,
    rest = pre ++ post /\
    min <= List.length pre /\ within max (List.length pre) /\
    forallb (atomMatches a) pre = true /\
    matched (k (idx + List.length pre) post) = true.
Proof.
  induction rest as [|c rest' IH]; intros min max idx.
  - cbn [repeatMatcher]. rewrite stop_matched. split.
    + intros [-> Hk]. exists [], []. simpl. rewrite Nat.add_0_r.
      repeat split; auto. destruct max; simpl; lia.
    + intros (pre & post & E & Hmin & _ & _ & Hk).
      symmetry in E. apply app_eq_nil in E as [-> ->]. simpl in *.
      rewrite Nat.add_0_r in Hk. split; [lia | exact Hk].
  - cbn [repeatMatcher]. split.
    + intros H.
      assert (Stop : matched (if min =? 0 then k idx (c :: rest') else None) = true ->
                     exists pre post, c :: rest' = pre ++ post /\
                       min <= List.length pre /\ within max (List.length pre) /\
                       forallb (atomMatches a) pre = true /\
                       matched (k (idx + List.length pre) post) = true).
      { intros S0. apply stop_matched in S0 as [-> Hk].
        exists [], (c :: rest'). simpl. rewrite Nat.add_0_r.
        repeat split; auto. destruct max; simpl; lia. }
      destruct (maxAllows max && atomMatches a c) eqn:C; [|now apply Stop].
      destruct (repeatMatcher a (pred min) (maxPred max) k (S idx) rest') as [e|] eqn:R;
        [|now apply Stop].
      apply andb_prop in C as [Cm Ca].
      destruct (proj1 (IH (pred min) (maxPred max) (S idx))) as
        (pre & post & E & Hmin & Hmax & Hall & Hk); [now rewrite R|].
      exists (c :: pre), post. simpl. rewrite Ca, Hall.
      replace (idx + S (List.length pre)) with (S idx + List.length pre) by lia.
      repeat split; auto; [now f_equal | lia |].
      destruct max as [m|]; simpl in *; [|exact I].
      destruct m; [discriminate | simpl in Hmax; lia].
    + intros (pre & post & E & Hmin & Hmax & Hall & Hk).
      destruct pre as [|c0 pre'].
      * simpl in *. subst post. rewrite Nat.add_0_r in Hk.
        assert (S0 : matched (if min =? 0 then k idx (c :: rest') else None) = true).
        { apply stop_matched. split; [lia | exact Hk]. }
        destruct (maxAllows max && atomMatches a c); [|exact S0].
        destruct (repeatMatcher a (pred min) (maxPred max) k (S idx) rest');
          [reflexivity | exact S0].
      * simpl in E, Hmin, Hmax, Hall, Hk. injection E as <- ->.
        apply andb_prop in Hall as [Ca Hall]. rewrite Ca.
        assert (Cm : maxAllows max = true).
        { destruct max as [m|]; [|reflexivity]. simpl in *.
          destruct m; [lia | reflexivity]. }
        rewrite Cm. simpl andb. cbv iota.
        assert (R : matched (repeatMatcher a (pred min) (maxPred max) k (S idx)
                               (pre' ++ post)) = true).
        { apply IH. exists pre', post.
          replace (S idx + List.length pre') with (idx + S (List.length pre')) by lia.
          repeat split; auto; [lia|].
          destruct max as [m|]; simpl in *; [lia | exact I]. }
        destruct (repeatMatcher a (pred min) (maxPred max) k (S idx) (pre' ++ post));
          [reflexivity | discriminate].
Qed.

Lemma match_start p idx rest :
  matched (matchTerms (AssertStart :: p) idx rest) = true <->
  idx = 0 /\ matched (matchTerms p 0 rest) = true.
Proof.
  cbn [matchTerms]. destruct (Nat.eqb_spec idx 0) as [->|N]; simpl.
  - tauto.
  - split; [discriminate | intros [E _]; contradiction].
Qed.

Lemma match_end p idx rest :
  matched (matchTerms (AssertEnd :: p) idx rest) = true <->
  rest = [] /\ matched (matchTerms p idx []) = true.
Proof.
  cbn [matchTerms]. destruct rest.
  - tauto.
  - simpl. split; [discriminate | intros [E _]; discriminate].
Qed.

Lemma match_single a p idx rest :
  matched (matchTerms (Single a :: p) idx rest) = true <->
  exists c rest',
    rest = c :: rest' /\ atomMatches a c = true /\
    matched (matchTerms p (S idx) rest') = true.
Proof.
  cbn [matchTerms]. destruct rest as [|c rest'].
  - simpl. split; [discriminate | intros (? & ? & E & _); discriminate].
  - destruct (atomMatches a c) eqn:A.
    + split.
      * intros H. now exists c, rest'.
      * intros (c' & r' & E & _ & H). now injection E as <- <-.
    + simpl. split; [discriminate|].
      intros (c' & r' & E & A' & _). injection E as <- <-. congruence.
Qed.

Lemma match_repeat a min max p idx rest :
  matched (matchTerms (Repeat a min max :: p) idx rest) = true <->
  exists pre post,
    rest = pre ++ post /\
    min <= List.length pre /\ within max (List.length pre) /\
    forallb (atomMatches a) pre = true /\
    matched (matchTerms p (idx + List.length pre) post) = true.
Proof. cbn [matchTerms]. apply repeatMatcher_matched. Qed.

(** A pattern that begins with [^] can only match at index 0, so the scan
    over later start positions adds nothing. *)
Lemma execFrom_anchored_later p rest : forall idx,
  execFrom (AssertStart :: p) false (S idx) rest = None.
Proof.
  induction rest as [|c rest' IH]; intros idx; cbn [execFrom matchTerms]; simpl Nat.eqb;
    cbv iota; [reflexivity | apply IH].
Qed.

Lemma execFrom_anchored p rest :
  execFrom (AssertStart :: p) false 0 rest = matchTerms (AssertStart :: p) 0 rest.
Proof.
  destruct rest as [|c rest']; cbn [execFrom];
    destruct (matchTerms (AssertStart :: p) 0 _); auto.
  apply execFrom_anchored_later.
Qed.

(** An unanchored single atom is found exactly when some character of the
    input matches it. *)
Lemma execFrom_single a rest : forall idx,
  matched (execFrom [Single a] false idx rest) = existsb (atomMatches a) rest.
Proof.
  induction rest as [|c rest' IH]; intros idx; cbn [execFrom matchTerms existsb].
  - reflexivity.
  - destruct (atomMatches a c); [reflexivity | apply IH].
Qed.

(** Without [g] and [y], [test] searches from index 0 and leaves the object
    as it was, whatever its [lastIndex]. *)
Lemma test_unflagged src li S :
  test (mkRegExp src false false li) S =
  (matched (execFrom src false 0 S), mkRegExp src false false li).
Proof.
  unfold test, regExpBuiltinExec. cbn [global sticky orb source lastIndex].
  cbn [Nat.ltb Nat.leb skipn].
  destruct (execFrom src false 0 S); reflexivity.
Qed.

End MatcherFacts.

(** ** The validators on the loaded module *)

Section ValidatorFacts.

Lemma notSpaceNorAt_plain c : atomMatches notSpaceNorAt c = plain c.
Proof.
  unfold plain. cbn. destruct (isWhiteSpace c), (c =? 64)%N; reflexivity.
Qed.

Lemma forallb_notSpaceNorAt l :
  forallb (atomMatches notSpaceNorAt) l = forallb plain l.
Proof.
  induction l as [|c l IH]; [reflexivity|].
  cbn [forallb]. now rewrite notSpaceNorAt_plain, IH.
Qed.

Lemma length_nonempty {A} (l : list A) : 1 <= List.length l <-> l <> [].
Proof.
  destruct l; simpl; split; intros H; try lia; congruence.
Qed.

(** [EMAIL_REGEX] against the wording of the specification. *)
Lemma email_matched v :
  matched (matchTerms EMAIL_SOURCE 0 v) = true <-> email_shape v.
Proof.
  unfold EMAIL_SOURCE, email_shape. split.
  - intros H.
    apply match_start in H as [_ H].
    apply match_repeat in H as (l & r1 & -> & Hl & _ & Al & H).
    apply match_single in H as (c1 & r2 & -> & A1 & H).
    apply match_repeat in H as (d & r3 & -> & Hd & _ & Ad & H).
    apply match_single in H as (c2 & r4 & -> & A2 & H).
    apply match_repeat in H as (t & r5 & -> & Ht & _ & At & H).
    apply match_end in H as [-> _].
    cbn [atomMatches] in A1, A2.
    apply N.eqb_eq in A1, A2. subst c1 c2.
    rewrite forallb_notSpaceNorAt in Al, Ad, At.
    exists l, d, t. rewrite app_nil_r.
    rewrite length_nonempty in Hl, Hd, Ht. auto 10.
  - intros (l & d & t & -> & Hl & Hd & Ht & Al & Ad & At).
    rewrite <- length_nonempty in Hl, Hd, Ht.
    rewrite <- forallb_notSpaceNorAt in Al, Ad, At.
    apply match_start. split; [reflexivity|].
    apply match_repeat. exists l, ([cu "@"] ++ d ++ [cu "."] ++ t).
    repeat split; auto.
    apply match_single. exists (cu "@"), (d ++ [cu "."] ++ t).
    repeat split; auto.
    apply match_repeat. exists d, ([cu "."] ++ t).
    repeat split; auto.
    apply match_single. exists (cu "."), t.
    repeat split; auto.
    apply match_repeat. exists t, []. rewrite app_nil_r.
    repeat split; auto.
Qed.

(** [E164_REGEX] against the wording of the specification. *)
Lemma phone_matched v :
  matched (matchTerms E164_SOURCE 0 v) = true <-> phone_shape v.
Proof.
  unfold E164_SOURCE, phone_shape. split.
  - intros H.
    apply match_start in H as [_ H].
    apply match_single in H as (c1 & r1 & -> & A1 & H).
    apply match_single in H as (d & r2 & -> & A2 & H).
    apply match_repeat in H as (further & r3 & -> & Hmin & Hmax & Ad & H).
    apply match_end in H as [-> _].
    cbn [atomMatches] in A1. apply N.eqb_eq in A1. subst c1.
    exists d, further. rewrite app_nil_r. simpl in Hmax.
    repeat split; auto.
    cbn in A2. rewrite orb_false_r in A2. exact A2.
  - intros (d & further & -> & A2 & [Hmin Hmax] & Ad).
    apply match_start. split; [reflexivity|].
    apply match_single. exists (cu "+"), (d :: further). repeat split; auto.
    apply match_single. exists d, further. repeat split; auto.
    { cbn. rewrite orb_false_r. exact A2. }
    apply match_repeat. exists further, []. rewrite app_nil_r.
    repeat split; auto.
Qed.

(** [/\d/.test(v)] is the presence of a digit. *)
Lemma digit_test v :
  fst (test (mkRegExp DIGIT_SOURCE false false 0) v) = has_digit v.
Proof.
  rewrite test_unflagged. cbn [fst]. unfold DIGIT_SOURCE.
  now rewrite execFrom_single.
Qed.

(** [PASSWORD_SPECIAL_REGEX.test(v)] is the presence of a whitelisted
    character. *)
Lemma special_search v :
  matched (execFrom PASSWORD_SPECIAL_SOURCE false 0 v) = has_special v.
Proof.
  unfold PASSWORD_SPECIAL_SOURCE. rewrite execFrom_single.
  unfold has_special. induction v as [|c v IH]; [reflexivity|].
  cbn [existsb]. rewrite IH. f_equal.
Qed.

Lemma validateEmail_loaded value :
  validateEmail value loaded =
  (match normalizeInput value with
   | Normal v =>
       Normal (result (if matched (matchTerms EMAIL_SOURCE 0 v) then []
                       else [email_format ERROR_MESSAGES]))
   | Throw e => Throw e
   end, loaded).
Proof.
  unfold validateEmail, bind, lift.
  destruct (normalizeInput value) as [v|e]; [|reflexivity].
  unfold test_EMAIL_REGEX. cbn [loaded EMAIL_REGEX E164_REGEX PASSWORD_SPECIAL_REGEX].
  rewrite test_unflagged. unfold EMAIL_SOURCE at 1. rewrite execFrom_anchored.
  fold EMAIL_SOURCE.
  destruct (matched (matchTerms EMAIL_SOURCE 0 v)); reflexivity.
Qed.

Lemma validatePhone_loaded value :
  validatePhone value loaded =
  (match normalizeInput value with
   | Normal v =>
       Normal (result (if matched (matchTerms E164_SOURCE 0 v) then []
                       else [phone_format ERROR_MESSAGES]))
   | Throw e => Throw e
   end, loaded).
Proof.
  unfold validatePhone, bind, lift.
  destruct (normalizeInput value) as [v|e]; [|reflexivity].
  unfold test_E164_REGEX. cbn [loaded EMAIL_REGEX E164_REGEX PASSWORD_SPECIAL_REGEX].
  rewrite test_unflagged. unfold E164_SOURCE at 1. rewrite execFrom_anchored.
  fold E164_SOURCE.
  destruct (matched (matchTerms E164_SOURCE 0 v)); reflexivity.
Qed.

(** The errors [validatePassword] collects for a normalized string. *)
Lemma validatePassword_loaded value :
  validatePassword value loaded =
  (match normalizeInput value with
   | Normal v =>
       Normal (result
         ((if long_enough v then [] else [password_length ERROR_MESSAGES]) ++
          (if has_digit v then [] else [password_number ERROR_MESSAGES]) ++
          (if has_special v then [] else [password_special ERROR_MESSAGES])))
   | Throw e => Throw e
   end, loaded).
Proof.
  unfold validatePassword, bind, lift.
  destruct (normalizeInput value) as [v|e]; [|reflexivity].
  unfold test_digit_literal, ret. rewrite digit_test.
  unfold test_PASSWORD_SPECIAL_REGEX.
  cbn [loaded EMAIL_REGEX E164_REGEX PASSWORD_SPECIAL_REGEX].
  rewrite test_unflagged, special_search.
  unfold js_length, long_enough. rewrite Nat.ltb_antisym.
  destruct (8 <=? List.length v), (has_digit v), (has_special v); reflexivity.
Qed.

End ValidatorFacts.

(** ** The result record *)

Section ResultFacts.

Lemma result_valid es : valid (result es) = true <-> errors (result es) = [].
Proof.
  unfold result. cbn [valid errors]. destruct es; simpl; split; congruence.
Qed.

(** Whatever the state of the module's objects, a validator that returns
    has built its answer with [result]. *)
Lemma returns_result validate value m r :
  In validate validators ->
  fst (validate value m) = Normal r ->
  exists es, r = result es.
Proof.
  intros HIn H. simpl in HIn.
  destruct HIn as [<-|[<-|[<-|[]]]].
  - unfold validateEmail, bind, lift, test_EMAIL_REGEX, ret in H.
    destruct (normalizeInput value); [|discriminate].
    destruct (test (EMAIL_REGEX m) a) as [b R']. cbn [fst] in H.
    injection H as <-. eauto.
  - unfold validatePassword, bind, lift, test_digit_literal,
      test_PASSWORD_SPECIAL_REGEX, ret in H.
    destruct (normalizeInput value); [|discriminate].
    destruct (test (PASSWORD_SPECIAL_REGEX m) a) as [b R']. cbn [fst] in H.
    injection H as <-. eauto.
  - unfold validatePhone, bind, lift, test_E164_REGEX, ret in H.
    destruct (normalizeInput value); [|discriminate].
    destruct (test (E164_REGEX m) a) as [b R']. cbn [fst] in H.
    injection H as <-. eauto.
Qed.

End ResultFacts.

(** ** Normalization, outcomes and the message table *)

Section OutcomeFacts.

Lemma normalizeInput_present value :
  present value = true ->
  normalizeInput value =
  match js_String value with
  | Normal s => Normal (trim s)
  | Throw e => Throw e
  end.
Proof. destruct value; try discriminate; reflexivity. Qed.

Lemma normalizeInput_absent value :
  present value = false -> normalizeInput value = Normal (lit "").
Proof. destruct value; try discriminate; reflexivity. Qed.

(** A normalized string is left alone by a second normalization. *)
Lemma normalizeInput_clean value v :
  normalizeInput value = Normal v -> trim v = v.
Proof.
  destruct (present value) eqn:P.
  - rewrite (normalizeInput_present value P).
    destruct (js_String value); [|discriminate].
    intros H. injection H as <-. apply trim_idem.
  - rewrite (normalizeInput_absent value P).
    intros H. injection H as <-. reflexivity.
Qed.

(** Each validator sees its argument through [normalizeInput] only. *)
Lemma validate_normalized validate value m :
  In validate validators ->
  validate value m =
  match normalizeInput value with
  | Normal v => validate (JsString v) m
  | Throw e => (Throw e, m)
  end.
Proof.
  intros HIn. simpl in HIn.
  destruct (normalizeInput value) as [v|e] eqn:N.
  - pose proof (normalizeInput_clean value v N) as C.
    destruct HIn as [<-|[<-|[<-|[]]]];
      [unfold validateEmail | unfold validatePassword | unfold validatePhone];
      unfold bind, lift; rewrite N; cbn [normalizeInput js_String];
      rewrite C; reflexivity.
  - destruct HIn as [<-|[<-|[<-|[]]]];
      [unfold validateEmail | unfold validatePassword | unfold validatePhone];
      unfold bind, lift; rewrite N; reflexivity.
Qed.

Lemma messages_distinct : NoDup message_table.
Proof.
  unfold message_table.
  repeat (constructor;
    [ let H := fresh in
      intros H; vm_compute in H;
      repeat (destruct H as [H|H]; [discriminate|]); exact H | ]).
  constructor.
Qed.

(** From the loaded module every call leaves the module as it was, and
    either propagates the exception of [normalizeInput] or returns
    [result es] for a duplicate-free list [es] of table messages. *)
Lemma loaded_outcome validate bound value :
  In (validate, bound) max_errors ->
  exists es : jsstring -> list jsstring,
    (forall v, Forall (fun msg => In msg message_table) (es v) /\
               NoDup (es v) /\ List.length (es v) <= bound) /\
    validate value loaded =
    (match normalizeInput value with
     | Normal v => Normal (result (es v))
     | Throw e => Throw e
     end, loaded).
Proof.
  intros HIn. unfold max_errors in HIn. cbn [In] in HIn.
  pose proof messages_distinct as D. unfold message_table in D.
  inversion D as [|? ? D1 D2]; subst. inversion D2 as [|? ? D3 D4]; subst.
  inversion D4 as [|? ? D5 D6]; subst. inversion D6 as [|? ? D7 D8]; subst.
  cbn [In] in D1, D3, D5, D7. clear D D2 D4 D6 D8.
  assert (TL : forall l, (forall msg, In msg l -> In msg message_table) ->
                 Forall (fun msg => In msg message_table) l).
  { intros l H. now apply Forall_forall. }
  destruct HIn as [E|[E|[E|[]]]]; injection E as <- <-.
  - exists (fun v => if matched (matchTerms EMAIL_SOURCE 0 v) then []
                     else [email_format ERROR_MESSAGES]).
    split; [|apply validateEmail_loaded].
    intros v. destruct (matched _); (split; [|split]).
    all: try (apply TL; intros msg; unfold message_table; cbn [In]; tauto).
    all: try (cbn [List.length]; lia).
    all: repeat (apply NoDup_cons; [cbn [In]; tauto|]); apply NoDup_nil.
  - exists (fun v =>
      (if long_enough v then [] else [password_length ERROR_MESSAGES]) ++
      (if has_digit v then [] else [password_number ERROR_MESSAGES]) ++
      (if has_special v then [] else [password_special ERROR_MESSAGES])).
    split; [|apply validatePassword_loaded].
    intros v. destruct (long_enough v), (has_digit v), (has_special v);
      cbn [app]; (split; [|split]).
    all: try (apply TL; intros msg; unfold message_table; cbn [In]; tauto).
    all: try (cbn [List.length]; lia).
    all: repeat (apply NoDup_cons; [cbn [In]; intuition congruence|]);
      apply NoDup_nil.
  - exists (fun v => if matched (matchTerms E164_SOURCE 0 v) then []
                     else [phone_format ERROR_MESSAGES]).
    split; [|apply validatePhone_loaded].
    intros v. destruct (matched _); (split; [|split]).
    all: try (apply TL; intros msg; unfold message_table; cbn [In]; tauto).
    all: try (cbn [List.length]; lia).
    all: repeat (apply NoDup_cons; [cbn [In]; tauto|]); apply NoDup_nil.
Qed.

Lemma validators_bounded validate :
  In validate validators -> exists bound, In (validate, bound) max_errors.
Proof.
  simpl. intros [<-|[<-|[<-|[]]]]; eauto.
Qed.

Lemma whitelisted_In c : whitelisted c = true <-> In c WHITELIST.
Proof.
  unfold whitelisted. rewrite existsb_exists. split.
  - intros (w & Hw & E). apply N.eqb_eq in E. now subst.
  - intros H. exists c. split; [exact H | apply N.eqb_refl].
Qed.

Lemma has_special_In v :
  has_special v = true <-> exists c, In c v /\ In c WHITELIST.
Proof.
  unfold has_special. rewrite existsb_exists.
  split; intros (c & Hc & W); exists c; split; auto; now apply whitelisted_In.
Qed.

Lemma special_test v :
  fst (test (PASSWORD_SPECIAL_REGEX loaded) v) = has_special v.
Proof.
  cbn [loaded PASSWORD_SPECIAL_REGEX]. rewrite test_unflagged. cbn [fst].
  apply special_search.
Qed.

Lemma space_digit_or_letter_not_whitelisted c :
  space_digit_or_letter c = true -> whitelisted c = false.
Proof.
  intros H. destruct (whitelisted c) eqn:W; [exfalso | reflexivity].
  apply whitelisted_In in W. vm_compute in W.
  repeat (destruct W as [W|W]; [subst c; vm_compute in H; discriminate|]).
  exact W.
Qed.

(** What [validatePassword] returns for a value with normalized string [v]. *)
Lemma validatePassword_run value v :
  normalizeInput value = Normal v ->
  run (validatePassword value) =
  Normal {|
    valid := long_enough v && has_digit v && has_special v;
    errors :=
      (if long_enough v then [] else [password_length ERROR_MESSAGES]) ++
      (if has_digit v then [] else [password_number ERROR_MESSAGES]) ++
      (if has_special v then [] else [password_special ERROR_MESSAGES])
  |}.
Proof.
  intros H. unfold run. rewrite validatePassword_loaded, H. cbn [fst].
  destruct (long_enough v), (has_digit v), (has_special v); reflexivity.
Qed.

End OutcomeFacts.

(** ** The cases of validation.test.js *)

Section TestSuite.

Local Open Scope string_scope.

Let ok : Completion ValidationResult :=
  Normal {| valid := true; errors := [] |}.

Let failing (msgs : list string) : Completion ValidationResult :=
  Normal {| valid := false; errors := map lit msgs |}.

Example test_email_accepts :
  run (validateEmail (JsString (lit "user@test.com"))) = ok.
Proof. reflexivity. Qed.

Example test_email_missing_domain :
  run (validateEmail (JsString (lit "user@"))) = failing ["Invalid email format"].
Proof. reflexivity. Qed.

Example test_email_empty :
  run (validateEmail (JsString (lit ""))) = failing ["Invalid email format"].
Proof. reflexivity. Qed.

Example test_email_null :
  run (validateEmail JsNull) = failing ["Invalid email format"].
Proof. reflexivity. Qed.

Example test_email_trims :
  run (validateEmail (JsString (lit "  user@test.com  "))) = ok.
Proof. reflexivity. Qed.

Example test_password_short :
  run (validatePassword (JsString (lit "Pass1!"))) =
  failing ["Password must be at least 8 characters long"].
Proof. reflexivity. Qed.

Example test_password_no_number :
  run (validatePassword (JsString (lit "Password!"))) =
  failing ["Password must contain at least one number"].
Proof. reflexivity. Qed.

Example test_password_no_special :
  run (validatePassword (JsString (lit "Password1"))) =
  failing ["Password must contain at least one special character"].
Proof. reflexivity. Qed.

Example test_password_null :
  run (validatePassword JsNull) =
  failing ["Password must be at least 8 characters long";
           "Password must contain at least one number";
           "Password must contain at least one special character"].
Proof. reflexivity. Qed.

Example test_phone_accepts :
  run (validatePhone (JsString (lit "+14155552671"))) = ok.
Proof. reflexivity. Qed.

Example test_phone_no_plus :
  run (validatePhone (JsString (lit "4155552671"))) =
  failing ["Invalid phone number format"].
Proof. reflexivity. Qed.

Example test_phone_punctuation :
  run (validatePhone (JsString (lit "+1(415)555-2671"))) =
  failing ["Invalid phone number format"].
Proof. reflexivity. Qed.

Example test_phone_empty :
  run (validatePhone (JsString (lit ""))) = failing ["Invalid phone number format"].
Proof. reflexivity. Qed.

End TestSuite.

(** ** Properties of the validators *)

(** C1. For every input value, every state of the module and each of
    [validateEmail], [validatePassword] and [validatePhone], the result the
    validator returns has [valid = true] if and only if its [errors] list is
    empty. *)
Theorem valid_iff_no_errors validate value m r :
  In validate validators ->
  fst (validate value m) = Normal r ->
  (valid r = true <-> errors r = []).
Proof.
  intros HIn H. destruct (returns_result validate value m r HIn H) as [es ->].
  apply result_valid.
Qed.

Lemma valid_iff_no_errors_witness :
  In validatePassword validators /\
  fst (validatePassword (JsString (lit "Pass1!")) loaded) =
    Normal (result [lit "Password must be at least 8 characters long"]) /\
  (valid (result [lit "Password must be at least 8 characters long"]) = true <->
   errors (result [lit "Password must be at least 8 characters long"]) = []).
Proof.
  split; [right; left; reflexivity|].
  split; [reflexivity|].
  apply (valid_iff_no_errors validatePassword (JsString (lit "Pass1!")) loaded).
  - right; left; reflexivity.
  - reflexivity.
Defined.

(** C2. For every input value, [validatePassword] evaluates the three checks
    on the normalized string (length at least 8, a digit 0-9, a whitelisted
    special character) independently of one another, appends the fixed
    message of each failing check in the order length, number, special, and
    returns [valid = true] exactly when all three pass. *)
Theorem validatePassword_cumulative value v :
  normalizeInput value = Normal v ->
  run (validatePassword value) =
  Normal {|
    valid := long_enough v && has_digit v && has_special v;
    errors :=
      (if long_enough v then []
       else [lit "Password must be at least 8 characters long"]) ++
      (if has_digit v then []
       else [lit "Password must contain at least one number"]) ++
      (if has_special v then []
       else [lit "Password must contain at least one special character"])
  |}.
Proof.
  intros H. exact (validatePassword_run value v H).
Qed.

Lemma validatePassword_cumulative_witness :
  normalizeInput (JsString (lit " Pass ")) = Normal (lit "Pass") /\
  run (validatePassword (JsString (lit " Pass "))) =
  Normal {|
    valid := false;
    errors := [ lit "Password must be at least 8 characters long";
                lit "Password must contain at least one number";
                lit "Password must contain at least one special character" ]
  |}.
Proof.
  split; [reflexivity|].
  exact (validatePassword_cumulative (JsString (lit " Pass ")) (lit "Pass") eq_refl).
Defined.

(** C3. For every input value, [validateEmail] returns [valid] with no
    errors exactly when the normalized string is one or more non-whitespace
    non-[@] characters, [@], one or more such characters, [.], one or more
    such characters; on every other normalized string it returns the single
    error "Invalid email format". *)
Theorem validateEmail_shape value v :
  normalizeInput value = Normal v ->
  (run (validateEmail value) = Normal {| valid := true; errors := [] |} <->
   email_shape v) /\
  (~ email_shape v ->
   run (validateEmail value) =
   Normal {| valid := false; errors := [lit "Invalid email format"] |}).
Proof.
  intros H. unfold run. rewrite validateEmail_loaded, H. cbn [fst].
  pose proof (email_matched v) as E.
  destruct (matched (matchTerms EMAIL_SOURCE 0 v)).
  - split; [split; [intros _; now apply E | reflexivity]|].
    intros N. exfalso. apply N. now apply E.
  - split; [|reflexivity].
    split; [discriminate|]. intros S. apply E in S. discriminate.
Qed.

Lemma validateEmail_shape_witness :
  normalizeInput (JsString (lit "  user@test.com  ")) = Normal (lit "user@test.com") /\
  (run (validateEmail (JsString (lit "  user@test.com  "))) =
     Normal {| valid := true; errors := [] |} <->
   email_shape (lit "user@test.com")) /\
  (~ email_shape (lit "user@test.com") ->
   run (validateEmail (JsString (lit "  user@test.com  "))) =
   Normal {| valid := false; errors := [lit "Invalid email format"] |}).
Proof.
  split; [reflexivity|].
  exact (validateEmail_shape (JsString (lit "  user@test.com  "))
           (lit "user@test.com") eq_refl).
Defined.

(** C4. For every input value, [validatePhone] returns [valid] with no
    errors exactly when the normalized string is [+], a first digit in 1-9
    and 7 to 14 further digits, with nothing else; on every other normalized
    string it returns the single error "Invalid phone number format". *)
Theorem validatePhone_shape value v :
  normalizeInput value = Normal v ->
  (run (validatePhone value) = Normal {| valid := true; errors := [] |} <->
   phone_shape v) /\
  (~ phone_shape v ->
   run (validatePhone value) =
   Normal {| valid := false; errors := [lit "Invalid phone number format"] |}).
Proof.
  intros H. unfold run. rewrite validatePhone_loaded, H. cbn [fst].
  pose proof (phone_matched v) as E.
  destruct (matched (matchTerms E164_SOURCE 0 v)).
  - split; [split; [intros _; now apply E | reflexivity]|].
    intros N. exfalso. apply N. now apply E.
  - split; [|reflexivity].
    split; [discriminate|]. intros S. apply E in S. discriminate.
Qed.

Lemma validatePhone_shape_witness :
  normalizeInput (JsString (lit "  +14155552671  ")) = Normal (lit "+14155552671") /\
  (run (validatePhone (JsString (lit "  +14155552671  "))) =
     Normal {| valid := true; errors := [] |} <->
   phone_shape (lit "+14155552671")) /\
  (~ phone_shape (lit "+14155552671") ->
   run (validatePhone (JsString (lit "  +14155552671  "))) =
   Normal {| valid := false; errors := [lit "Invalid phone number format"] |}).
Proof.
  split; [reflexivity|].
  exact (validatePhone_shape (JsString (lit "  +14155552671  "))
           (lit "+14155552671") eq_refl).
Defined.

(** C5. The special-character check of [validatePassword] succeeds exactly
    when the normalized string contains a character of the whitelist; a
    character satisfies it only if it is in the whitelist, so a space, a
    digit or a letter does not; the message of the check is reported exactly
    when the check fails; "Passw0rd!" and "Password1_" are valid with no
    errors. *)
Theorem special_character_check value v :
  normalizeInput value = Normal v ->
  (fst (test (PASSWORD_SPECIAL_REGEX loaded) v) = true <->
   exists c, In c v /\ In c WHITELIST) /\
  (exists r,
     run (validatePassword value) = Normal r /\
     (In (lit "Password must contain at least one special character") (errors r) <->
      ~ exists c, In c v /\ In c WHITELIST)) /\
  (forall c, fst (test (PASSWORD_SPECIAL_REGEX loaded) [c]) = true <->
             In c WHITELIST) /\
  (forall c, space_digit_or_letter c = true ->
             fst (test (PASSWORD_SPECIAL_REGEX loaded) [c]) = false) /\
  run (validatePassword (JsString (lit "Passw0rd!"))) =
    Normal {| valid := true; errors := [] |} /\
  run (validatePassword (JsString (lit "Password1_"))) =
    Normal {| valid := true; errors := [] |}.
Proof.
  intros H. split; [|split; [|split; [|split; [|split]]]].
  - rewrite special_test. apply has_special_In.
  - rewrite (validatePassword_run value v H). eexists. split; [reflexivity|].
    cbn [errors]. rewrite <- has_special_In.
    destruct (has_special v).
    + split; [|intros N; now elim N].
      intros I. exfalso.
      destruct (long_enough v), (has_digit v); cbn [app In] in I;
        repeat (destruct I as [I|I]; [vm_compute in I; discriminate|]); exact I.
    + split; [discriminate|]. intros _.
      apply in_or_app. right. apply in_or_app. right. now left.
  - intros c. rewrite special_test. unfold has_special. cbn [existsb].
    rewrite orb_false_r. apply whitelisted_In.
  - intros c Hc. rewrite special_test. unfold has_special. cbn [existsb].
    rewrite orb_false_r. now apply space_digit_or_letter_not_whitelisted.
  - reflexivity.
  - reflexivity.
Qed.

Lemma special_character_check_witness :
  normalizeInput (JsString (lit "Password1")) = Normal (lit "Password1") /\
  exists r,
    run (validatePassword (JsString (lit "Password1"))) = Normal r /\
    (In (lit "Password must contain at least one special character") (errors r) <->
     ~ exists c, In c (lit "Password1") /\ In c WHITELIST).
Proof.
  split; [reflexivity|].
  exact (proj1 (proj2
    (special_character_check (JsString (lit "Password1")) (lit "Password1") eq_refl))).
Defined.

(** C6. For every input value and each validator, the value is normalized
    before any check: [null] and [undefined] become the empty string, any
    present value is converted by [String] and stripped of leading and
    trailing whitespace, and the validator's outcome depends on the value
    through this normalization only, which is the same for the three. *)
Theorem normalization_shared validate value m :
  In validate validators ->
  (present value = false -> normalizeInput value = Normal (lit "")) /\
  (present value = true ->
   forall s, js_String value = Normal s ->
     normalizeInput value = Normal (trim s) /\ stripped s (trim s)) /\
  validate value m =
    match normalizeInput value with
    | Normal v => validate (JsString v) m
    | Throw e => (Throw e, m)
    end /\
  (forall other, normalizeInput other = normalizeInput value ->
     validate other m = validate value m).
Proof.
  intros HIn. split; [|split; [|split]].
  - apply normalizeInput_absent.
  - intros P s S. rewrite (normalizeInput_present value P), S.
    split; [reflexivity | apply trim_stripped].
  - now apply validate_normalized.
  - intros other E.
    rewrite (validate_normalized validate other m HIn),
            (validate_normalized validate value m HIn), E.
    reflexivity.
Qed.

Lemma normalization_shared_witness :
  In validatePhone validators /\
  (present (JsBoolean true) = true ->
   forall s, js_String (JsBoolean true) = Normal s ->
     normalizeInput (JsBoolean true) = Normal (trim s) /\ stripped s (trim s)) /\
  validatePhone (JsBoolean true) loaded =
    match normalizeInput (JsBoolean true) with
    | Normal v => validatePhone (JsString v) loaded
    | Throw e => (Throw e, loaded)
    end.
Proof.
  assert (HIn : In validatePhone validators) by (right; right; left; reflexivity).
  split; [exact HIn|].
  split.
  - exact (proj1 (proj2 (normalization_shared validatePhone (JsBoolean true) loaded HIn))).
  - exact (proj1 (proj2 (proj2
      (normalization_shared validatePhone (JsBoolean true) loaded HIn)))).
Defined.

(** C7, as the code has it: an object whose conversion by [String] throws
    makes each validator throw. *)
Lemma validators_throw_on_unconvertible_object :
  run (validateEmail (JsObject (Throw TypeError))) = Throw TypeError /\
  run (validatePassword (JsObject (Throw TypeError))) = Throw TypeError /\
  run (validatePhone (JsObject (Throw TypeError))) = Throw TypeError.
Proof. repeat split. Qed.

(** C7, amended. For every input value whose conversion by [String] does
    not throw, each validator returns a result and leaves the module's
    objects as they were; a failure is a non-empty [errors] list of messages
    of the fixed table, [valid] being false exactly then.  When the
    conversion throws, the validator throws the same exception, again
    without any effect on the module. *)
Theorem validators_return_unless_conversion_throws validate value :
  In validate validators ->
  match js_String value with
  | Normal _ =>
      exists r,
        validate value loaded = (Normal r, loaded) /\
        (valid r = false <-> errors r <> []) /\
        Forall (fun msg => In msg message_table) (errors r)
  | Throw e => validate value loaded = (Throw e, loaded)
  end.
Proof.
  intros HIn. destruct (validators_bounded validate HIn) as [bound HB].
  destruct (loaded_outcome validate bound value HB) as (es & Hes & E).
  rewrite E. clear E.
  destruct (js_String value) as [s|e] eqn:S.
  - assert (N : exists v, normalizeInput value = Normal v).
    { destruct (present value) eqn:P.
      - rewrite (normalizeInput_present value P), S. eauto.
      - rewrite (normalizeInput_absent value P). eauto. }
    destruct N as [v ->]. exists (result (es v)).
    split; [reflexivity|]. split; [|apply Hes].
    pose proof (result_valid (es v)) as RV.
    destruct (valid (result (es v))); split; intros A; try congruence.
    + exfalso. apply A. now apply RV.
    + intros B. apply RV in B. discriminate.
  - assert (P : present value = true) by (destruct value; try discriminate; reflexivity).
    now rewrite (normalizeInput_present value P), S.
Qed.

Lemma validators_return_unless_conversion_throws_witness :
  In validateEmail validators /\
  exists r,
    validateEmail (JsString (lit "user@")) loaded = (Normal r, loaded) /\
    (valid r = false <-> errors r <> []) /\
    Forall (fun msg => In msg message_table) (errors r).
Proof.
  assert (HIn : In validateEmail validators) by (left; reflexivity).
  split; [exact HIn|].
  exact (validators_return_unless_conversion_throws validateEmail
           (JsString (lit "user@")) HIn).
Defined.

(** C9. For every input value, every string of the returned [errors] list
    is one of the five strings of [ERROR_MESSAGES], no message occurs twice,
    and the list has at most 1 element for [validateEmail] and
    [validatePhone] and at most 3 for [validatePassword]. *)
Theorem errors_from_table validate bound value r :
  In (validate, bound) max_errors ->
  run (validate value) = Normal r ->
  Forall (fun msg => In msg message_table) (errors r) /\
  NoDup (errors r) /\
  List.length (errors r) <= bound.
Proof.
  intros HB H. unfold run in H.
  destruct (loaded_outcome validate bound value HB) as (es & Hes & E).
  rewrite E in H. cbn [fst] in H.
  destruct (normalizeInput value) as [v|e]; [|discriminate].
  injection H as <-. apply Hes.
Qed.

Lemma errors_from_table_witness :
  In (validatePassword, 3) max_errors /\
  run (validatePassword JsNull) =
    Normal (result [ lit "Password must be at least 8 characters long";
                     lit "Password must contain at least one number";
                     lit "Password must contain at least one special character" ]) /\
  List.length
    (errors (result [ lit "Password must be at least 8 characters long";
                      lit "Password must contain at least one number";
                      lit "Password must contain at least one special character" ])) <= 3.
Proof.
  assert (HB : In (validatePassword, 3) max_errors) by (right; left; reflexivity).
  split; [exact HB|]. split; [reflexivity|].
  exact (proj2 (proj2 (errors_from_table validatePassword 3 JsNull _ HB eq_refl))).
Defined.

(** ** Further facts about [trim] *)

Section PaddingFacts.

Lemma trimStart_blank s : blank s = true -> trimStart s = [].
Proof.
  unfold blank. induction s as [|c t IH]; [reflexivity|].
  cbn [forallb trimStart]. intros H. apply andb_prop in H as [W B].
  rewrite W. now apply IH.
Qed.

Lemma trimEnd_blank s : blank s = true -> trimEnd s = [].
Proof.
  unfold blank. induction s as [|c t IH]; [reflexivity|].
  cbn [forallb trimEnd]. intros H. apply andb_prop in H as [W B].
  now rewrite (IH B), W.
Qed.

Lemma trimStart_blank_app pre x :
  blank pre = true -> trimStart (pre ++ x) = trimStart x.
Proof.
  unfold blank. induction pre as [|c t IH]; [reflexivity|].
  cbn [forallb app trimStart]. intros H. apply andb_prop in H as [W B].
  rewrite W. now apply IH.
Qed.

Lemma trimEnd_app_blank x post :
  blank post = true -> trimEnd (x ++ post) = trimEnd x.
Proof.
  intros B. induction x as [|c t IH].
  - now apply trimEnd_blank.
  - cbn [app trimEnd]. now rewrite IH.
Qed.

(** [trimStart] stops at the first character that is not whitespace. *)
Lemma trimStart_keeps p c w :
  isWhiteSpace c = false -> exists a, trimStart (p ++ c :: w) = a ++ c :: w.
Proof.
  intros W. induction p as [|h p [a IH]].
  - exists []. now apply trimStart_fixed.
  - cbn [app trimStart]. destruct (isWhiteSpace h).
    + now exists a.
    + now exists (h :: p).
Qed.

(** [trimEnd] removes nothing before the last character that is not
    whitespace. *)
Lemma trimEnd_keeps w z q :
  isWhiteSpace z = false -> exists b, trimEnd (w ++ z :: q) = w ++ z :: b.
Proof.
  intros W. induction w as [|h w [b IH]].
  - apply trimEnd_head, W.
  - exists b. cbn [app trimEnd]. rewrite IH.
    now destruct w.
Qed.

Lemma trim_padding pre s post :
  blank pre = true -> blank post = true -> trim (pre ++ s ++ post) = trim s.
Proof.
  intros Bpre Bpost. unfold trim. rewrite (trimStart_blank_app pre _ Bpre).
  destruct (trimStart s) as [|c t] eqn:T.
  - assert (Bs : blank s = true).
    { destruct (trimStart_split s) as [p [E F]]. rewrite T, app_nil_r in E.
      now subst p. }
    rewrite trimStart_blank; [reflexivity|].
    unfold blank in *. rewrite forallb_app. now rewrite Bs, Bpost.
  - pose proof (trimStart_head s) as Hc. rewrite T in Hc.
    destruct (trimStart_split s) as [p [E F]]. rewrite T in E.
    assert (E' : trimStart (s ++ post) = (c :: t) ++ post).
    { rewrite E at 1. rewrite <- app_assoc.
      rewrite (trimStart_blank_app p _ F). cbn [app]. now apply trimStart_fixed. }
    rewrite E'. now apply trimEnd_app_blank.
Qed.

(** A non-empty string with clean ends survives [trim] wherever it sits. *)
Lemma trim_infix p u q :
  u <> [] -> clean_ends u = true ->
  exists a b, trim (p ++ u ++ q) = a ++ u ++ b.
Proof.
  intros N C. unfold clean_ends in C. apply andb_prop in C as [C1 C2].
  destruct u as [|c u']; [contradiction|].
  apply negb_true_iff in C1.
  destruct (rev (c :: u')) as [|z r] eqn:R.
  { apply (f_equal (@List.length _)) in R. rewrite length_rev in R. discriminate. }
  apply negb_true_iff in C2.
  assert (U : c :: u' = rev r ++ [z]).
  { rewrite <- (rev_involutive (c :: u')), R. reflexivity. }
  unfold trim. cbn [app].
  destruct (trimStart_keeps p c (u' ++ q) C1) as [a Ea]. rewrite Ea.
  change (a ++ c :: u' ++ q) with (a ++ (c :: u') ++ q).
  rewrite U. rewrite <- app_assoc. cbn [app]. rewrite app_assoc.
  destruct (trimEnd_keeps (a ++ rev r) z q C2) as [b Eb]. rewrite Eb.
  exists a, b. change (c :: u' ++ b) with ((c :: u') ++ b).
  rewrite U, <- !app_assoc. reflexivity.
Qed.

End PaddingFacts.

(** ** What accepted emails and phone numbers look like *)

Section ShapeFacts.

Lemma count_at_app a b : count_at (a ++ b) = count_at a + count_at b.
Proof. unfold count_at. now rewrite filter_app, length_app. Qed.

Lemma plain_count_at l : forallb plain l = true -> count_at l = 0.
Proof.
  unfold count_at, plain. induction l as [|c l IH]; [reflexivity|].
  cbn [forallb filter]. intros H. apply andb_prop in H as [Hc Hl].
  apply andb_prop in Hc as [_ A]. apply negb_true_iff in A. rewrite A.
  now apply IH.
Qed.

Lemma plain_no_whitespace l : forallb plain l = true -> no_whitespace l = true.
Proof.
  unfold no_whitespace, plain. induction l as [|c l IH]; [reflexivity|].
  cbn [forallb]. intros H. apply andb_prop in H as [Hc Hl].
  apply andb_prop in Hc as [W _]. now rewrite W, IH.
Qed.

Lemma digits_count_at l : forallb in_0_9 l = true -> count_at l = 0.
Proof.
  unfold count_at, in_0_9. induction l as [|c l IH]; [reflexivity|].
  cbn [forallb filter]. intros H. apply andb_prop in H as [Hc Hl].
  apply andb_prop in Hc as [Lo Hi].
  apply N.leb_le in Lo, Hi. change (cu "0") with 48%N in Lo.
  change (cu "9") with 57%N in Hi. change (cu "@") with 64%N.
  destruct (N.eqb_spec c 64) as [->|_]; [lia | now apply IH].
Qed.

Lemma email_shape_facts v :
  email_shape v ->
  count_at v = 1 /\ no_whitespace v = true /\ 5 <= List.length v.
Proof.
  intros (l & d & t & -> & Hl & Hd & Ht & Al & Ad & At).
  apply length_nonempty in Hl, Hd, Ht.
  repeat split.
  - rewrite !count_at_app, (plain_count_at l Al), (plain_count_at d Ad),
      (plain_count_at t At). reflexivity.
  - unfold no_whitespace. rewrite !forallb_app.
    fold (no_whitespace l) (no_whitespace d) (no_whitespace t).
    rewrite (plain_no_whitespace l Al), (plain_no_whitespace d Ad),
      (plain_no_whitespace t At). reflexivity.
  - rewrite !length_app. cbn [List.length]. lia.
Qed.

Lemma phone_shape_facts v :
  phone_shape v -> count_at v = 0 /\ 9 <= List.length v.
Proof.
  intros (d & further & -> & Hd & [Lo Hi] & Hf). split.
  - change (cu "+" :: d :: further) with ([cu "+"] ++ [d] ++ further).
    rewrite !count_at_app, (digits_count_at further Hf).
    assert (D : forallb in_0_9 [d] = true).
    { cbn [forallb]. rewrite andb_true_r. unfold in_1_9 in Hd. unfold in_0_9.
      apply andb_prop in Hd as [A B]. apply N.leb_le in A. rewrite B, andb_true_r.
      apply N.leb_le. change (cu "1") with 49%N in A. change (cu "0") with 48%N. lia. }
    rewrite (digits_count_at [d] D). reflexivity.
  - cbn [List.length]. lia.
Qed.

(** The dot of an accepted email sits strictly inside the part after the
    [@]. *)
Lemma email_interior v :
  email_shape v <->
  exists local domain,
    v = local ++ cu "@" :: domain /\
    local <> [] /\
    forallb plain local = true /\ forallb plain domain = true /\
    In (cu ".") (interior domain).
Proof.
  unfold interior. split.
  - intros (l & d & t & -> & Hl & Hd & Ht & Al & Ad & At).
    exists l, (d ++ [cu "."] ++ t). repeat split; auto.
    + rewrite !forallb_app, Ad, At. reflexivity.
    + destruct d as [|c d']; [contradiction|]. cbn [app tl].
      rewrite removelast_app by discriminate.
      apply in_or_app. right.
      change (cu "." :: t) with ([cu "."] ++ t).
      rewrite removelast_app by assumption. now left.
  - intros (l & dom & -> & Hl & Al & Adom & I).
    destruct dom as [|c rest]; [contradiction|]. cbn [tl] in I.
    assert (Nrest : rest <> []) by (intros ->; contradiction).
    rewrite (app_removelast_last 0%N Nrest) in Adom.
    pose proof (in_split _ _ I) as (a & b & E).
    assert (Adom' : forallb plain (c :: (a ++ cu "." :: b) ++ [last rest 0%N]) = true)
      by (rewrite <- E; exact Adom).
    clear Adom. rename Adom' into Adom.
    exists l, (c :: a), (b ++ [last rest 0%N]).
    cbn [forallb] in Adom. rewrite !forallb_app in Adom. cbn [forallb] in Adom.
    apply andb_prop in Adom as [Hc Adom]. apply andb_prop in Adom as [Adom Hz].
    apply andb_prop in Adom as [Ha Adom]. apply andb_prop in Adom as [_ Hb].
    repeat split.
    + cbn [app]. do 3 f_equal.
      change (a ++ cu "." :: b ++ [last rest 0%N])
        with (a ++ (cu "." :: b) ++ [last rest 0%N]).
      rewrite app_assoc, <- E. now apply app_removelast_last.
    + exact Hl.
    + discriminate.
    + intros E'. apply app_eq_nil in E' as [_ E']. discriminate.
    + exact Al.
    + cbn [forallb]. now rewrite Hc, Ha.
    + rewrite forallb_app, Hb. exact Hz.
Qed.

(** The three ways a call of [validateEmail] ends. *)
Lemma email_outcome value :
  match normalizeInput value with
  | Normal v =>
      (email_shape v /\ run (validateEmail value) = accepted) \/
      (~ email_shape v /\
       run (validateEmail value) = rejected ["Invalid email format"%string])
  | Throw e => run (validateEmail value) = Throw e
  end.
Proof.
  unfold run. rewrite validateEmail_loaded. cbn [fst].
  destruct (normalizeInput value) as [v|e]; [|reflexivity].
  pose proof (email_matched v) as E.
  destruct (matched (matchTerms EMAIL_SOURCE 0 v)).
  - left. split; [now apply E | reflexivity].
  - right. split; [|reflexivity]. intros S. apply E in S. discriminate.
Qed.

(** The three ways a call of [validatePhone] ends. *)
Lemma phone_outcome value :
  match normalizeInput value with
  | Normal v =>
      (phone_shape v /\ run (validatePhone value) = accepted) \/
      (~ phone_shape v /\
       run (validatePhone value) = rejected ["Invalid phone number format"%string])
  | Throw e => run (validatePhone value) = Throw e
  end.
Proof.
  unfold run. rewrite validatePhone_loaded. cbn [fst].
  destruct (normalizeInput value) as [v|e]; [|reflexivity].
  pose proof (phone_matched v) as E.
  destruct (matched (matchTerms E164_SOURCE 0 v)).
  - left. split; [now apply E | reflexivity].
  - right. split; [|reflexivity]. intros S. apply E in S. discriminate.
Qed.

(** [validatePassword] accepts exactly when the three checks pass. *)
Lemma password_accepted value :
  run (validatePassword value) = accepted <->
  exists v, normalizeInput value = Normal v /\
            long_enough v = true /\ has_digit v = true /\ has_special v = true.
Proof.
  split.
  - intros H. destruct (normalizeInput value) as [v|e] eqn:N.
    + rewrite (validatePassword_run value v N) in H. unfold accepted in H.
      injection H as Hv _. exists v.
      apply andb_prop in Hv as [Hv H3]. apply andb_prop in Hv as [H1 H2]. auto.
    + unfold run in H. rewrite validatePassword_loaded, N in H. discriminate.
  - intros (v & N & H1 & H2 & H3).
    rewrite (validatePassword_run value v N), H1, H2, H3. reflexivity.
Qed.

Lemma printable_ascii_range c :
  (cu " " <= c <= cu "~")%N -> In c printable_ascii.
Proof.
  change (cu " ") with 32%N. change (cu "~") with 126%N. intros H.
  unfold printable_ascii. apply in_map_iff. exists (N.to_nat c).
  split; [apply N2Nat.id | apply in_seq; lia].
Qed.

End ShapeFacts.

(** ** Further properties of the validators *)

(** X1. Whitespace around a string is ignored: for each validator and every
    state of the module, a string padded on either side with whitespace
    (spaces, tabs, line breaks, no-break spaces, ...) gets the outcome of
    the string itself. *)
Theorem padding_ignored validate pre s post m :
  In validate validators ->
  blank pre = true -> blank post = true ->
  validate (JsString (pre ++ s ++ post)) m = validate (JsString s) m.
Proof.
  intros HIn Bpre Bpost.
  rewrite (validate_normalized validate (JsString (pre ++ s ++ post)) m HIn).
  rewrite (validate_normalized validate (JsString s) m HIn).
  cbn [normalizeInput js_String]. now rewrite trim_padding.
Qed.

Lemma padding_ignored_witness :
  In validateEmail validators /\
  blank [9; 160]%N = true /\ blank (lit " ") = true /\
  validateEmail (JsString ([9; 160]%N ++ lit "user@test.com" ++ lit " ")) loaded =
  validateEmail (JsString (lit "user@test.com")) loaded.
Proof.
  assert (HIn : In validateEmail validators) by (left; reflexivity).
  split; [exact HIn|]. split; [reflexivity|]. split; [reflexivity|].
  exact (padding_ignored validateEmail [9; 160]%N (lit "user@test.com") (lit " ")
           loaded HIn eq_refl eq_refl).
Defined.

(** X2. A value whose string form is empty or only whitespace is validated
    exactly like [null]: each validator gives it the outcome it gives
    [null], which is the email format error, the three password errors and
    the phone format error. *)
Theorem blank_as_missing value s :
  js_String value = Normal s -> blank s = true ->
  (forall validate m, In validate validators ->
     validate value m = validate JsNull m) /\
  run (validateEmail value) = rejected ["Invalid email format"%string] /\
  run (validatePassword value) =
    rejected [ "Password must be at least 8 characters long"%string;
               "Password must contain at least one number"%string;
               "Password must contain at least one special character"%string ] /\
  run (validatePhone value) = rejected ["Invalid phone number format"%string].
Proof.
  intros S B.
  assert (N : normalizeInput value = Normal (lit "")).
  { destruct (present value) eqn:P.
    - rewrite (normalizeInput_present value P), S. unfold trim.
      now rewrite (trimStart_blank s B).
    - destruct value; try discriminate; injection S as <-; discriminate. }
  assert (All : forall validate m, In validate validators ->
                  validate value m = validate JsNull m).
  { intros validate m HIn.
    rewrite (validate_normalized validate value m HIn), N.
    now rewrite (validate_normalized validate JsNull m HIn). }
  split; [exact All|].
  unfold run.
  rewrite (All validateEmail loaded), (All validatePassword loaded),
          (All validatePhone loaded);
    [ repeat split | right; right; left | right; left | left ]; reflexivity.
Qed.

Lemma blank_as_missing_witness :
  js_String (JsString (lit "   ")) = Normal (lit "   ") /\
  blank (lit "   ") = true /\
  run (validatePhone (JsString (lit "   "))) =
    rejected ["Invalid phone number format"%string].
Proof.
  split; [reflexivity|]. split; [reflexivity|].
  exact (proj2 (proj2 (proj2
    (blank_as_missing (JsString (lit "   ")) (lit "   ") eq_refl eq_refl)))).
Defined.

(** X3. Whatever [validateEmail] accepts has, once normalized, exactly one
    [@], no whitespace anywhere and at least five code units. *)
Theorem accepted_email_necessary value v :
  normalizeInput value = Normal v ->
  run (validateEmail value) = accepted ->
  count_at v = 1 /\ no_whitespace v = true /\ 5 <= js_length v.
Proof.
  intros N H. pose proof (email_outcome value) as O. rewrite N in O.
  destruct O as [[S _]|[_ R]].
  - now apply email_shape_facts.
  - rewrite R in H. discriminate.
Qed.

Lemma accepted_email_necessary_witness :
  normalizeInput (JsString (lit " a@b.c ")) = Normal (lit "a@b.c") /\
  run (validateEmail (JsString (lit " a@b.c "))) = accepted /\
  count_at (lit "a@b.c") = 1 /\ no_whitespace (lit "a@b.c") = true /\
  5 <= js_length (lit "a@b.c").
Proof.
  split; [reflexivity|]. split; [reflexivity|].
  exact (accepted_email_necessary (JsString (lit " a@b.c ")) (lit "a@b.c")
           eq_refl eq_refl).
Defined.

(** X4. [validateEmail] accepts exactly the normalized strings that split at
    an [@] into a non-empty local part and a domain part, both free of
    whitespace and of [@], where the domain part has a dot that is neither
    its first nor its last character. *)
Theorem accepted_email_interior_dot value v :
  normalizeInput value = Normal v ->
  (run (validateEmail value) = accepted <->
   exists local domain,
     v = local ++ cu "@" :: domain /\
     local <> [] /\
     forallb plain local = true /\ forallb plain domain = true /\
     In (cu ".") (interior domain)).
Proof.
  intros N. rewrite <- email_interior.
  pose proof (email_outcome value) as O. rewrite N in O.
  destruct O as [[S A]|[S R]]; split; intros H; auto.
  - rewrite R in H. discriminate.
  - contradiction.
Qed.

Lemma accepted_email_interior_dot_witness :
  normalizeInput (JsString (lit "user@.com")) = Normal (lit "user@.com") /\
  (run (validateEmail (JsString (lit "user@.com"))) = accepted <->
   exists local domain,
     lit "user@.com" = local ++ cu "@" :: domain /\
     local <> [] /\
     forallb plain local = true /\ forallb plain domain = true /\
     In (cu ".") (interior domain)).
Proof.
  split; [reflexivity|].
  exact (accepted_email_interior_dot (JsString (lit "user@.com")) (lit "user@.com")
           eq_refl).
Defined.

(** X5. [validatePassword] has no upper bound on length and forbids no
    character: a string that contains an accepted password as a contiguous
    part is accepted as well. *)
Theorem password_extension x s y :
  run (validatePassword (JsString s)) = accepted ->
  run (validatePassword (JsString (x ++ s ++ y))) = accepted.
Proof.
  intros H. apply password_accepted in H as (v & N & H1 & H2 & H3).
  cbn [normalizeInput js_String] in N. injection N as <-.
  apply password_accepted. exists (trim (x ++ s ++ y)).
  split; [reflexivity|].
  destruct (trim_stripped s) as (pre & post & E & _ & _ & C).
  assert (NE : trim s <> []).
  { intros Z. rewrite Z in H1. discriminate. }
  destruct (trim_infix (x ++ pre) (trim s) (post ++ y) NE C) as (a & b & T).
  assert (R : x ++ s ++ y = (x ++ pre) ++ trim s ++ post ++ y).
  { rewrite E at 1. now rewrite <- !app_assoc. }
  rewrite R, T. unfold long_enough, has_digit, has_special in *.
  rewrite !length_app, !existsb_app, H2, H3, !orb_true_r.
  repeat split. apply Nat.leb_le. apply Nat.leb_le in H1. lia.
Qed.

Lemma password_extension_witness :
  run (validatePassword (JsString (lit "Passw0rd!"))) = accepted /\
  run (validatePassword (JsString (lit "my " ++ lit "Passw0rd!" ++ lit " is long"))) =
    accepted.
Proof.
  split; [reflexivity|].
  exact (password_extension (lit "my ") (lit "Passw0rd!") (lit " is long") eq_refl).
Defined.

(** X8. Among the printable ASCII characters, the special-character check
    of [validatePassword] is passed by exactly those that are neither a
    space, a digit, a letter, a backtick nor a tilde. *)
Theorem special_check_on_printable_ascii c :
  (cu " " <= c <= cu "~")%N ->
  (fst (test (PASSWORD_SPECIAL_REGEX loaded) [c]) = true <->
   space_digit_or_letter c = false /\ c <> cu "`" /\ c <> cu "~").
Proof.
  intros H. apply printable_ascii_range in H.
  rewrite special_test. unfold has_special. cbn [existsb]. rewrite orb_false_r.
  assert (T : forallb (fun k => Bool.eqb (whitelisted k)
                (negb (space_digit_or_letter k) &&
                 negb (k =? cu "`")%N && negb (k =? cu "~")%N))
              printable_ascii = true) by (vm_compute; reflexivity).
  rewrite forallb_forall in T. specialize (T c H). apply Bool.eqb_prop in T.
  rewrite T. rewrite !andb_true_iff, !negb_true_iff, !N.eqb_neq. tauto.
Qed.

Lemma special_check_on_printable_ascii_witness :
  (cu " " <= cu "~" <= cu "~")%N /\
  (fst (test (PASSWORD_SPECIAL_REGEX loaded) [cu "~"]) = true <->
   space_digit_or_letter (cu "~") = false /\ cu "~" <> cu "`" /\ cu "~" <> cu "~").
Proof.
  assert (R : (cu " " <= cu "~" <= cu "~")%N) by (vm_compute; split; discriminate).
  split; [exact R|].
  exact (special_check_on_printable_ascii (cu "~") R).
Defined.

(** X9. The errors of [validatePassword] tell which checks failed: each of
    the three messages is in the returned list exactly when its own check
    fails on the normalized string. *)
Theorem password_errors_identify_checks value v r :
  normalizeInput value = Normal v ->
  run (validatePassword value) = Normal r ->
  (In (lit "Password must be at least 8 characters long") (errors r) <->
   js_length v < 8) /\
  (In (lit "Password must contain at least one number") (errors r) <->
   has_digit v = false) /\
  (In (lit "Password must contain at least one special character") (errors r) <->
   has_special v = false).
Proof.
  intros N H. rewrite (validatePassword_run value v N) in H. injection H as <-.
  cbn [errors]. unfold js_length.
  assert (L : List.length v < 8 <-> long_enough v = false).
  { unfold long_enough. rewrite Nat.leb_gt. reflexivity. }
  rewrite L. clear L.
  destruct (long_enough v), (has_digit v), (has_special v); cbn [app In];
    repeat split; intros X; try discriminate; try reflexivity; try tauto;
    repeat (destruct X as [X|X]; [vm_compute in X; discriminate|]); contradiction.
Qed.

Lemma password_errors_identify_checks_witness :
  normalizeInput (JsString (lit "Password!")) = Normal (lit "Password!") /\
  run (validatePassword (JsString (lit "Password!"))) =
    rejected ["Password must contain at least one number"%string] /\
  (In (lit "Password must contain at least one number")
      (map lit ["Password must contain at least one number"%string]) <->
   has_digit (lit "Password!") = false).
Proof.
  split; [reflexivity|]. split; [reflexivity|].
  exact (proj1 (proj2
    (password_errors_identify_checks (JsString (lit "Password!")) (lit "Password!")
       {| valid := false;
          errors := map lit ["Password must contain at least one number"%string] |}
       eq_refl eq_refl))).
Defined.

(** ** Calls in sequence *)

Section SessionFacts.

(** A call from the loaded module leaves the module as it found it. *)
Lemma loaded_stays validate value :
  In validate validators -> snd (validate value loaded) = loaded.
Proof.
  intros HIn. destruct (validators_bounded validate HIn) as [bound HB].
  destruct (loaded_outcome validate bound value HB) as (es & _ & E).
  now rewrite E.
Qed.

(** The session after a call from the loaded module. *)
Lemma call_loaded validate a k :
  In validate validators ->
  call validate a (loaded, k) =
  (run (validate (seen a k)), (loaded, if present (seen a k) then S k else k)).
Proof.
  intros HIn. unfold call, run.
  pose proof (loaded_stays validate (seen a k) HIn) as L.
  destruct (validate (seen a k) loaded) as [r m']. cbn [fst snd] in *.
  now subst m'.
Qed.

(** The call that follows sees the argument's next conversion; when that
    conversion repeats the previous one, it sees what the call before saw. *)
Lemma next_call_sees_same a k :
  seen a (S k) = seen a k ->
  seen a (if present (seen a k) then S k else k) = seen a k.
Proof. intros R. now destruct (present (seen a k)). Qed.

(** One conversion of a value cannot make both an email and a phone
    number. *)
Lemma email_excludes_phone value :
  run (validateEmail value) = accepted ->
  run (validatePhone value) = rejected ["Invalid phone number format"%string].
Proof.
  intros H. pose proof (email_outcome value) as O.
  pose proof (phone_outcome value) as P.
  destruct (normalizeInput value) as [v|e].
  - destruct O as [[S _]|[_ R]]; [|rewrite R in H; discriminate].
    destruct P as [[Q _]|[_ R]]; [|exact R].
    apply email_shape_facts in S as [S _]. apply phone_shape_facts in Q as [Q _].
    rewrite S in Q. discriminate.
  - rewrite O in H. discriminate.
Qed.

(** One conversion of a value that makes a phone number makes a password
    and no email. *)
Lemma phone_includes_password value :
  run (validatePhone value) = accepted ->
  run (validatePassword value) = accepted /\
  run (validateEmail value) = rejected ["Invalid email format"%string].
Proof.
  intros H. pose proof (email_outcome value) as O.
  pose proof (phone_outcome value) as P.
  destruct (normalizeInput value) as [v|e] eqn:N.
  - destruct P as [[Q _]|[_ R]]; [|rewrite R in H; discriminate]. split.
    + apply password_accepted. exists v. split; [exact N|].
      pose proof (phone_shape_facts v Q) as [_ L].
      destruct Q as (d & further & -> & Hd & _ & _).
      repeat split.
      * unfold long_enough. apply Nat.leb_le. lia.
      * unfold has_digit. cbn [existsb].
        assert (D : in_0_9 d = true).
        { unfold in_1_9 in Hd. unfold in_0_9.
          apply andb_prop in Hd as [A B]. apply N.leb_le in A. rewrite B, andb_true_r.
          apply N.leb_le. change (cu "1") with 49%N in A. change (cu "0") with 48%N. lia. }
        now rewrite D, orb_true_r.
    + destruct O as [[S _]|[_ R]]; [|exact R].
      apply email_shape_facts in S as [S _]. apply phone_shape_facts in Q as [Q _].
      rewrite S in Q. discriminate.
  - rewrite P in H. discriminate.
Qed.

(** A string without whitespace is its own normal form. *)
Lemma no_whitespace_trim s : no_whitespace s = true -> trim s = s.
Proof.
  intros H. apply clean_ends_trim. unfold no_whitespace in H.
  rewrite forallb_forall in H. unfold clean_ends. apply andb_true_intro. split.
  - destruct s as [|c t]; [reflexivity|]. apply H. now left.
  - destruct (rev s) as [|c t] eqn:R; [reflexivity|].
    apply H. apply in_rev. rewrite R. now left.
Qed.

Lemma in_removelast (x : code_unit) l : In x (removelast l) -> In x l.
Proof.
  induction l as [|c l IH]; [contradiction|].
  cbn [removelast]. destruct l as [|d l']; [contradiction|].
  intros [->|H]; [now left | right; now apply IH].
Qed.

Lemma removelast_insert (x y : code_unit) a b :
  In x (removelast (a ++ b)) -> In x (removelast (a ++ y :: b)).
Proof.
  destruct b as [|c b'].
  - rewrite app_nil_r, removelast_last. apply in_removelast.
  - rewrite !removelast_app by discriminate.
    intros H. apply in_app_or in H as [H|H]; apply in_or_app; [now left|].
    right. change (removelast (y :: c :: b')) with (y :: removelast (c :: b')).
    now right.
Qed.

(** A dot strictly inside a string stays strictly inside when a character
    is inserted anywhere. *)
Lemma interior_insert (x y : code_unit) d1 d2 :
  In x (interior (d1 ++ d2)) -> In x (interior (d1 ++ y :: d2)).
Proof.
  unfold interior. destruct d1 as [|c d1']; cbn [app tl].
  - destruct d2 as [|c t]; [contradiction|]. cbn [tl].
    destruct t as [|c' t']; [contradiction|].
    intros H. change (removelast (c :: c' :: t')) with (c :: removelast (c' :: t')).
    now right.
  - apply removelast_insert.
Qed.

(** Non-empty local part, no whitespace and no further [@], a dot strictly
    inside the domain part: the string is accepted as it stands. *)
Lemma interior_dot_accepted local domain :
  local <> [] ->
  forallb plain local = true -> forallb plain domain = true ->
  In (cu ".") (interior domain) ->
  run (validateEmail (JsString (local ++ cu "@" :: domain))) = accepted.
Proof.
  intros Hl Al Ad I.
  assert (S : email_shape (local ++ cu "@" :: domain)).
  { apply email_interior. exists local, domain. auto. }
  assert (N : normalizeInput (JsString (local ++ cu "@" :: domain)) =
              Normal (local ++ cu "@" :: domain)).
  { cbn [normalizeInput js_String]. f_equal. apply no_whitespace_trim.
    now apply email_shape_facts. }
  pose proof (email_outcome (JsString (local ++ cu "@" :: domain))) as O.
  rewrite N in O. destruct O as [[_ A]|[C _]]; [exact A | contradiction].
Qed.

End SessionFacts.

(** ** Properties that involve several calls or several inputs *)

(** C8, as the code has it: [String] runs the argument's [toString] again
    at every call, so two calls of a validator on one and the same object
    can disagree.  The object that answers "a@b.c" and then "+14155552671"
    is accepted by the first call of [validateEmail] and rejected by the
    second. *)
Lemma second_call_differs_for_stateful_object :
  fst (call validateEmail fickle start) = accepted /\
  fst (call validateEmail fickle (snd (call validateEmail fickle start))) =
    rejected ["Invalid email format"%string] /\
  fst (call validateEmail fickle (snd (call validateEmail fickle start))) <>
    fst (call validateEmail fickle start).
Proof. repeat split. discriminate. Qed.

(** C8, amended.  For each validator and every argument whose conversion by
    [String] gives at the next call what it gave at this one (always so for
    [null], [undefined] and the primitives, and for an object whose
    [toString] keeps no state), the second of two calls in a row returns
    what the first returned; and for a present argument, validating the
    argument right after validating [trim(String(argument))] returns the
    same. *)
Theorem repeatable_conversion_deterministic validate a k :
  In validate validators ->
  seen a (S k) = seen a k ->
  fst (call validate a (snd (call validate a (loaded, k)))) =
    fst (call validate a (loaded, k)) /\
  (present (seen a k) = true ->
   fst (call validate a (snd (call_normalized validate a (loaded, k)))) =
     fst (call_normalized validate a (loaded, k))).
Proof.
  intros HIn R. split.
  - rewrite (call_loaded validate a k HIn). cbn [fst snd].
    rewrite (call_loaded validate a _ HIn). cbn [fst].
    now rewrite (next_call_sees_same a k R).
  - intros P. unfold call_normalized.
    assert (V : run (validate (seen a k)) =
                match js_String (seen a k) with
                | Normal str => run (validate (JsString (trim str)))
                | Throw e => Throw e
                end).
    { unfold run. rewrite (validate_normalized validate (seen a k) loaded HIn).
      rewrite (normalizeInput_present (seen a k) P).
      destruct (js_String (seen a k)); reflexivity. }
    destruct (js_String (seen a k)) as [str|e].
    + pose proof (loaded_stays validate (JsString (trim str)) HIn) as L.
      destruct (validate (JsString (trim str)) loaded) as [r m'] eqn:E.
      cbn [fst snd] in *. subst m'.
      rewrite (call_loaded validate a (S k) HIn). cbn [fst].
      rewrite R, V. unfold run. now rewrite E.
    + cbn [fst snd]. rewrite (call_loaded validate a (S k) HIn). cbn [fst].
      now rewrite R, V.
Qed.

Lemma repeatable_conversion_deterministic_witness :
  In validatePhone validators /\
  seen fickle 2 = seen fickle 1 /\
  fst (call validatePhone fickle (snd (call validatePhone fickle (loaded, 1)))) =
    fst (call validatePhone fickle (loaded, 1)) /\
  (present (seen fickle 1) = true ->
   fst (call validatePhone fickle (snd (call_normalized validatePhone fickle (loaded, 1)))) =
     fst (call_normalized validatePhone fickle (loaded, 1))).
Proof.
  assert (HIn : In validatePhone validators) by (right; right; left; reflexivity).
  split; [exact HIn|]. split; [reflexivity|].
  exact (repeatable_conversion_deterministic validatePhone fickle 1 HIn eq_refl).
Defined.

(** C10. The dot is itself a non-whitespace non-[@] character, so
    [validateEmail] accepts extra dots in any position after the [@]: when
    the local part is non-empty, local and domain part hold neither
    whitespace nor [@], and the domain part has a dot strictly inside, the
    address is accepted, and it is still accepted with one more dot inserted
    at any place of the domain part (at its start, at its end, next to
    another dot).  "user@test.com." and "a@b..c" are valid with no
    errors. *)
Theorem validateEmail_extra_dots :
  plain (cu ".") = true /\
  (forall local d1 d2,
     local <> [] ->
     forallb plain local = true -> forallb plain (d1 ++ d2) = true ->
     In (cu ".") (interior (d1 ++ d2)) ->
     run (validateEmail (JsString (local ++ cu "@" :: d1 ++ d2))) =
       Normal {| valid := true; errors := [] |} /\
     run (validateEmail (JsString (local ++ cu "@" :: d1 ++ cu "." :: d2))) =
       Normal {| valid := true; errors := [] |}) /\
  run (validateEmail (JsString (lit "user@test.com."))) =
    Normal {| valid := true; errors := [] |} /\
  run (validateEmail (JsString (lit "a@b..c"))) =
    Normal {| valid := true; errors := [] |}.
Proof.
  split; [reflexivity|]. split; [|split; reflexivity].
  intros local d1 d2 Hl Al Ad I. split.
  - now apply interior_dot_accepted.
  - apply interior_dot_accepted; auto.
    + rewrite forallb_app in *. cbn [forallb].
      apply andb_prop in Ad as [A1 A2]. now rewrite A1, A2.
    + now apply interior_insert.
Qed.

Lemma validateEmail_extra_dots_witness :
  lit "a" <> [] /\
  forallb plain (lit "a") = true /\ forallb plain ([] ++ lit "b.c") = true /\
  In (cu ".") (interior ([] ++ lit "b.c")) /\
  run (validateEmail (JsString (lit "a" ++ cu "@" :: [] ++ lit "b.c"))) =
    Normal {| valid := true; errors := [] |} /\
  run (validateEmail (JsString (lit "a" ++ cu "@" :: [] ++ cu "." :: lit "b.c"))) =
    Normal {| valid := true; errors := [] |}.
Proof.
  assert (Hl : lit "a" <> []) by discriminate.
  assert (I : In (cu ".") (interior ([] ++ lit "b.c"))) by (left; reflexivity).
  split; [exact Hl|]. split; [reflexivity|]. split; [reflexivity|].
  split; [exact I|].
  exact (proj1 (proj2 validateEmail_extra_dots) (lit "a") [] (lit "b.c")
           Hl eq_refl eq_refl I).
Defined.

(** X6. An argument is not both an email and a phone number: when
    [validateEmail] accepts an argument and the argument's conversion by
    [String] gives at the next call what it gave at this one (always so for
    strings and the other primitives), [validatePhone], called next, rejects
    it with its format error. *)
Theorem accepted_email_then_rejected_phone a k :
  seen a (S k) = seen a k ->
  fst (call validateEmail a (loaded, k)) = accepted ->
  fst (call validatePhone a (snd (call validateEmail a (loaded, k)))) =
    rejected ["Invalid phone number format"%string].
Proof.
  intros R H.
  assert (E : In validateEmail validators) by (left; reflexivity).
  assert (P : In validatePhone validators) by (right; right; left; reflexivity).
  rewrite (call_loaded validateEmail a k E) in *. cbn [fst snd] in *.
  rewrite (call_loaded validatePhone a _ P). cbn [fst].
  rewrite (next_call_sees_same a k R). now apply email_excludes_phone.
Qed.

Lemma accepted_email_then_rejected_phone_witness :
  seen (Plain (JsString (lit "user@test.com"))) 1 =
    seen (Plain (JsString (lit "user@test.com"))) 0 /\
  fst (call validateEmail (Plain (JsString (lit "user@test.com"))) (loaded, 0)) =
    accepted /\
  fst (call validatePhone (Plain (JsString (lit "user@test.com")))
         (snd (call validateEmail (Plain (JsString (lit "user@test.com"))) (loaded, 0)))) =
    rejected ["Invalid phone number format"%string].
Proof.
  split; [reflexivity|]. split; [reflexivity|].
  exact (accepted_email_then_rejected_phone (Plain (JsString (lit "user@test.com"))) 0
           eq_refl eq_refl).
Defined.

(** The condition of X6 is needed: the object that answers "a@b.c" and
    then "+14155552671" is accepted by [validateEmail] and, called next, by
    [validatePhone]. *)
Example fickle_email_then_phone :
  fst (call validateEmail fickle start) = accepted /\
  fst (call validatePhone fickle (snd (call validateEmail fickle start))) = accepted.
Proof. split; reflexivity. Qed.

(** X7. When [validatePhone] accepts an argument and the argument's
    conversion by [String] gives at the next call what it gave at this one
    (always so for strings and the other primitives), [validatePassword],
    called next, accepts it too (the [+] is a whitelisted special character
    and at least eight digits follow), and [validateEmail], called next,
    rejects it. *)
Theorem accepted_phone_then_password a k :
  seen a (S k) = seen a k ->
  fst (call validatePhone a (loaded, k)) = accepted ->
  fst (call validatePassword a (snd (call validatePhone a (loaded, k)))) = accepted /\
  fst (call validateEmail a (snd (call validatePhone a (loaded, k)))) =
    rejected ["Invalid email format"%string].
Proof.
  intros R H.
  assert (E : In validateEmail validators) by (left; reflexivity).
  assert (W : In validatePassword validators) by (right; left; reflexivity).
  assert (P : In validatePhone validators) by (right; right; left; reflexivity).
  rewrite (call_loaded validatePhone a k P) in *. cbn [fst snd] in *.
  rewrite (call_loaded validatePassword a _ W), (call_loaded validateEmail a _ E).
  cbn [fst]. rewrite (next_call_sees_same a k R).
  now apply phone_includes_password.
Qed.

Lemma accepted_phone_then_password_witness :
  seen fickle 2 = seen fickle 1 /\
  fst (call validatePhone fickle (loaded, 1)) = accepted /\
  fst (call validatePassword fickle (snd (call validatePhone fickle (loaded, 1)))) =
    accepted /\
  fst (call validateEmail fickle (snd (call validatePhone fickle (loaded, 1)))) =
    rejected ["Invalid email format"%string].
Proof.
  split; [reflexivity|]. split; [reflexivity|].
  exact (accepted_phone_then_password fickle 1 eq_refl eq_refl).
Defined.
